(** * gamercraze: the script-gallery viewer of [script.js]

    A shallow embedding of the catalog fetcher ([fetchScripts]), the page
    loader ([loadPage]) and the incremental update detector
    ([pollForNewScripts]) of [script.js], and the properties of the
    watermark [newestTimestamp] and of the collection [allScripts].

    What is modelled and how:
    - a JavaScript string is the list of its UTF-16 code units, compared
      the way [<] and [>] compare two strings (code unit by code unit);
    - a JSON property that holds a string is a [jsval]: absent
      ([JUndefined]), [null] or a string; [||] and [&&] follow truthiness;
    - the script-level [let] variables are the fields of [state];
    - an [async] function is a resumption: it runs on the state until it
      awaits the network, and its continuation receives the response and the
      state as it is when the function resumes;
    - [throw] and [try]/[catch] go through [completion]; the one exception
      the page can raise by itself is the [URIError] of
      [encodeURIComponent(author)] on a lone surrogate, while a card is
      rendered;
    - the page number is a double holding a natural;
    - of the DOM, the state keeps the text of the new-count badge; the code
      view of a card ([card]) and the interval timers ([timers]) are modelled
      apart, and an event of the page ([event]) is handled to its end before
      the next one; the spinner, the error banner and the one-shot timeouts
      are left out;
    - [String.prototype.toLowerCase] and [String.prototype.trim] are built-ins
      of the host, taken as the operations of the class [StringOps]. *)

From Stdlib Require Import Ascii String DecimalString List Arith NArith Bool Lia.
Import ListNotations.
Local Open Scope N_scope.
Local Open Scope list_scope.

(** ** JavaScript values *)

Definition jsstring : Type := list N.

(** A string literal of the source, as code units. *)
Fixpoint lit (s : string) : jsstring :=
  match s with
  | EmptyString => []
  | String c s' => N_of_ascii c :: lit s'
  end.

Inductive jsval : Type :=
| JUndefined
| JNull
| JStr (s : jsstring).

(** [ToBoolean]: [undefined], [null] and the empty string are falsy. *)
Definition truthy (v : jsval) : bool :=
  match v with
  | JStr (_ :: _) => true
  | _ => false
  end.

(** [a || b] *)
Definition js_or (a b : jsval) : jsval := if truthy a then a else b.

(** [(v || "")] where a string is expected. *)
Definition or_empty (v : jsval) : jsstring :=
  match js_or v (JStr []) with
  | JStr s => s
  | _ => []
  end.

(** [x < y] on two strings: [y] a prefix of [x] gives false, [x] a proper
    prefix of [y] gives true, otherwise the first differing code units
    decide. *)
Fixpoint str_ltb (x y : jsstring) : bool :=
  match x, y with
  | _, [] => false
  | [], _ :: _ => true
  | a :: x', b :: y' =>
      if a <? b then true
      else if b <? a then false
      else str_ltb x' y'
  end.

(** [a > b].  Two strings are compared as strings and a comparison with
    [undefined] is false; a string against [null] would go through numbers,
    which is not modelled and taken as false.  The detector only evaluates
    [>] on two non-empty strings (see [newer] and [scan]). *)
Definition js_gt (a b : jsval) : bool :=
  match a, b with
  | JStr x, JStr y => str_ltb y x
  | _, _ => false
  end.

(** [s.includes(q)] *)
Fixpoint starts_with (s q : jsstring) : bool :=
  match q, s with
  | [], _ => true
  | _ :: _, [] => false
  | b :: q', a :: s' => (a =? b) && starts_with s' q'
  end.

Fixpoint includes (s q : jsstring) : bool :=
  starts_with s q ||
  match s with
  | [] => false
  | _ :: s' => includes s' q
  end.

(** The string built-ins of the host. *)
Class StringOps : Type := {
  toLowerCase : jsstring -> jsstring;
  trim : jsstring -> jsstring
}.

(** ** Items, pages and responses *)

Record user_obj : Type := {
  username : jsval;
  user_image : jsval
}.

(** An item of the catalog with the properties the script reads. *)
Record script : Type := {
  _id : jsval;
  title : jsval;
  description : jsval;
  creator : jsval;
  user : option user_obj;
  createdAt : jsval;
  date : jsval;
  image : jsval;
  rawScript : jsval;
  language : jsval
}.

(** [data.info]; a number that is absent or [null] is [None]. *)
Record info_obj : Type := {
  info_currentPage : option N;
  info_maxPages : option N
}.

(** What [fetchScripts] returns: [data.scripts] is an array there. *)
Record page_result : Type := {
  scripts : list script;
  info : option info_obj
}.

(** [{ scripts: [], info: {} }] *)
Definition empty_result : page_result :=
  {| scripts := [];
     info := Some {| info_currentPage := None; info_maxPages := None |} |}.

(** The parsed body.  Anything that is not an object ([null], a number, a
    string, a boolean, an array) has no [scripts]; in an object, [scripts]
    is absent or [null] ([None]) or an array of items. *)
Inductive json : Type :=
| NotAnObject
| Object (data_scripts : option (list script)) (data_info : option info_obj).

(** The outcome of [fetch(url)] followed by [resp.json()]. *)
Inductive response : Type :=
| Rejected
| Resolved (status : N) (body : option json).

(** [resp.ok] *)
Definition ok (status : N) : bool := (200 <=? status) && (status <=? 299).

(** The query built at the start of [fetchScripts]. *)
Record request : Type := {
  req_page : N;
  req_orderBy : jsstring;
  req_sort : jsstring
}.

Inductive error : Type :=
| FetchFailed
| HttpError (status : N)
| JsonSyntaxError
| URIError.

Inductive completion (A : Type) : Type :=
| Normal (a : A)
| Throw (e : error).

Arguments Normal {A} a.
Arguments Throw {A} e.

(** [try { body } catch (err) { handler }] *)
Definition try_catch {A} (body : completion A) (handler : error -> completion A)
  : completion A :=
  match body with
  | Normal a => Normal a
  | Throw e => handler e
  end.

(** ** The state of the page *)

Record state : Type := {
  currentPage : N;
  maxPages : option N;
  autoRefresh : bool;
  newestTimestamp : jsval;
  allScripts : list script;
  filteredScripts : list script;
  searchQuery : jsstring;
  newCountBadge : option nat
}.

Definition initial : state :=
  {| currentPage := 1;
     maxPages := None;
     autoRefresh := true;
     newestTimestamp := JNull;
     allScripts := [];
     filteredScripts := [];
     searchQuery := [];
     newCountBadge := None |}.

Definition set_currentPage (v : N) (s : state) : state :=
  {| currentPage := v; maxPages := maxPages s; autoRefresh := autoRefresh s;
     newestTimestamp := newestTimestamp s; allScripts := allScripts s;
     filteredScripts := filteredScripts s; searchQuery := searchQuery s;
     newCountBadge := newCountBadge s |}.

Definition set_maxPages (v : option N) (s : state) : state :=
  {| currentPage := currentPage s; maxPages := v; autoRefresh := autoRefresh s;
     newestTimestamp := newestTimestamp s; allScripts := allScripts s;
     filteredScripts := filteredScripts s; searchQuery := searchQuery s;
     newCountBadge := newCountBadge s |}.

Definition set_autoRefresh (v : bool) (s : state) : state :=
  {| currentPage := currentPage s; maxPages := maxPages s; autoRefresh := v;
     newestTimestamp := newestTimestamp s; allScripts := allScripts s;
     filteredScripts := filteredScripts s; searchQuery := searchQuery s;
     newCountBadge := newCountBadge s |}.

Definition set_newestTimestamp (v : jsval) (s : state) : state :=
  {| currentPage := currentPage s; maxPages := maxPages s;
     autoRefresh := autoRefresh s;
     newestTimestamp := v; allScripts := allScripts s;
     filteredScripts := filteredScripts s; searchQuery := searchQuery s;
     newCountBadge := newCountBadge s |}.

Definition set_allScripts (v : list script) (s : state) : state :=
  {| currentPage := currentPage s; maxPages := maxPages s;
     autoRefresh := autoRefresh s;
     newestTimestamp := newestTimestamp s; allScripts := v;
     filteredScripts := filteredScripts s; searchQuery := searchQuery s;
     newCountBadge := newCountBadge s |}.

Definition set_filteredScripts (v : list script) (s : state) : state :=
  {| currentPage := currentPage s; maxPages := maxPages s;
     autoRefresh := autoRefresh s;
     newestTimestamp := newestTimestamp s; allScripts := allScripts s;
     filteredScripts := v; searchQuery := searchQuery s;
     newCountBadge := newCountBadge s |}.

Definition set_newCountBadge (v : option nat) (s : state) : state :=
  {| currentPage := currentPage s; maxPages := maxPages s;
     autoRefresh := autoRefresh s;
     newestTimestamp := newestTimestamp s; allScripts := allScripts s;
     filteredScripts := filteredScripts s; searchQuery := searchQuery s;
     newCountBadge := v |}.

(** ** Asynchronous functions *)

(** A started [async] function has either finished, with a value and the
    state it leaves, or awaits the response to a request, having left the
    state [s]; it resumes on the response and the state of that moment. *)
Inductive task (A : Type) : Type :=
| Done (a : A) (s : state)
| Await (req : request) (s : state) (k : response -> state -> task A).

Arguments Done {A} a s.
Arguments Await {A} req s k.

Definition async (A : Type) : Type := state -> task A.

Fixpoint bind_task {A B} (t : task A) (f : A -> async B) : task B :=
  match t with
  | Done a s => f a s
  | Await req s k => Await req s (fun r s' => bind_task (k r s') f)
  end.

Definition bind {A B} (m : async A) (f : A -> async B) : async B :=
  fun s => bind_task (m s) f.

Definition ret {A} (a : A) : async A := fun s => Done a s.

(** [update f]: a statement that assigns to the script-level variables. *)
Definition update (f : state -> state) : async unit := fun s => Done tt (f s).

Notation "x <- m ;; k" := (bind m (fun x => k))
  (at level 61, m at next level, right associativity).

(** Running a task to its end with no other callback in between: each
    request is answered by [net] and the function resumes on the state it
    left.  The result carries the requests issued, oldest first. *)
Fixpoint run_task {A} (net : request -> response) (t : task A)
  : A * state * list request :=
  match t with
  | Done a s => (a, s, [])
  | Await req s k =>
      let '(a, s', reqs) := run_task net (k (net req) s) in
      (a, s', req :: reqs)
  end.

Definition run {A} (net : request -> response) (m : async A) (s : state)
  : A * state * list request :=
  run_task net (m s).

(** The state an operation leaves, and the requests it issued. *)
Definition final {A} (net : request -> response) (m : async A) (s : state)
  : state := snd (fst (run net m s)).

Definition requests {A} (net : request -> response) (m : async A) (s : state)
  : list request := snd (run net m s).

(** ** Catalog fetcher *)

Definition page_url (page : N) : request :=
  {| req_page := page; req_orderBy := lit "date"; req_sort := lit "desc" |}.

(** The [try] block of [fetchScripts], from the settled [fetch]. *)
Definition fetch_try (r : response) : completion page_result :=
  match r with
  | Rejected => Throw FetchFailed
  | Resolved status body =>
      if negb (ok status) then Throw (HttpError status)
      else
        match body with
        | None => Throw JsonSyntaxError
        | Some NotAnObject => Normal empty_result
        | Some (Object None _) => Normal empty_result
        | Some (Object (Some l) i) => Normal {| scripts := l; info := i |}
        end
  end.

Definition fetch_completion (r : response) : completion page_result :=
  try_catch (fetch_try r) (fun _ => Normal empty_result).

Definition fetchScripts (page : N) : async (completion page_result) :=
  fun s => Await (page_url page) s (fun r s' => Done (fetch_completion r) s').

(** ** Rendering a card *)

(** The constants [hasUser] and [author] of [renderScriptCard]. *)
Definition hasUser (sc : script) : jsval :=
  match user sc with
  | Some u => username u
  | None => JUndefined
  end.

Definition card_author (sc : script) : jsval :=
  if truthy (hasUser sc)
  then match user sc with
       | Some u => username u
       | None => JUndefined
       end
  else js_or (creator sc) (JStr (lit "Unknown")).

Definition high_surrogate (c : N) : bool := (55296 <=? c) && (c <=? 56319).

Definition low_surrogate (c : N) : bool := (56320 <=? c) && (c <=? 57343).

(** A string without a lone surrogate: every high surrogate is followed by
    a low one and no low surrogate stands alone.  [encodeURIComponent]
    throws [URIError] on any other string. *)
Fixpoint well_formed (s : jsstring) : bool :=
  match s with
  | [] => true
  | c :: rest =>
      if low_surrogate c then false
      else if high_surrogate c then
        match rest with
        | d :: rest' => low_surrogate d && well_formed rest'
        | [] => false
        end
      else well_formed rest
  end.

(** [renderScriptCard(script)], as far as the variables of the page go: the
    card it builds belongs to the document, and the one statement that can
    throw is [encodeURIComponent(author)], evaluated when the avatar is not
    the image of the user. *)
Definition renderScriptCard (sc : script) : completion unit :=
  if truthy (hasUser sc)
     && truthy (match user sc with
                | Some u => user_image u
                | None => JUndefined
                end)
  then Normal tt
  else if well_formed (or_empty (card_author sc)) then Normal tt
  else Throw URIError.

(** The [forEach] of [renderFilteredScripts]: the first card that throws
    ends it. *)
Fixpoint render_cards (l : list script) : completion unit :=
  match l with
  | [] => Normal tt
  | sc :: rest =>
      match renderScriptCard sc with
      | Normal _ => render_cards rest
      | Throw e => Throw e
      end
  end.

(** The natural a double holds when the exact result of an operation is
    [m]: up to 2^53 it is [m]; beyond, [m] is rounded to the nearest double,
    a tie going to the even significand. *)
Definition to_double (m : N) : N :=
  if m <? 9007199254740992 then m
  else
    let sh := N.log2 m - 52 in
    let q := m / 2 ^ sh in
    let r := m mod 2 ^ sh in
    let half := 2 ^ (sh - 1) in
    let q' := if r <? half then q
              else if half <? r then q + 1
              else if N.even q then q else q + 1 in
    q' * 2 ^ sh.

(** ** Search filter and badge *)

Section Viewer.

Context {ops : StringOps}.

Definition matches (query : jsstring) (sc : script) : bool :=
  includes (toLowerCase (or_empty (title sc))) query
  || includes (toLowerCase (or_empty (description sc))) query
  || includes (toLowerCase (or_empty (creator sc))) query
  || includes (toLowerCase
       (or_empty (match user sc with
                  | Some u => username u
                  | None => JUndefined
                  end))) query.

(** The assignment to [filteredScripts] at the start of
    [applySearchFilter]. *)
Definition filter_view (s : state) : state :=
  match trim (searchQuery s) with
  | [] => set_filteredScripts (allScripts s) s
  | _ :: _ =>
      let query := toLowerCase (searchQuery s) in
      set_filteredScripts (filter (matches query) (allScripts s)) s
  end.

(** [renderFilteredScripts()]: no card for an empty view. *)
Definition renderFilteredScripts (s : state) : completion unit :=
  render_cards (filteredScripts s).

(** [applySearchFilter()]: the view is assigned, then rendered; the result
    is the completion of the rendering and the state it leaves. *)
Definition applySearchFilter (s : state) : completion unit * state :=
  let s := filter_view s in
  (renderFilteredScripts s, s).

Definition showNewCount (count : nat) (s : state) : state :=
  if (0 <? count)%nat then set_newCountBadge (Some count) s
  else set_newCountBadge None s.

(** ** Page loading *)

(** [n || d] on an optional number: 0 is falsy. *)
Definition num_or (n : option N) (d : N) : N :=
  match n with
  | Some 0 | None => d
  | Some v => v
  end.

Definition num_or_null (n : option N) : option N :=
  match n with
  | Some 0 | None => None
  | Some v => Some v
  end.

(** [script.createdAt || script.date] *)
Definition timestamp_of (sc : script) : jsval :=
  js_or (createdAt sc) (date sc).

(** The statements of [loadPage] that follow [applySearchFilter()]. *)
Definition loadPage_tail (page : N) (data : page_result) (s : state) : state :=
  let s := set_currentPage
             (num_or (match info data with
                      | Some i => info_currentPage i
                      | None => None
                      end) page) s in
  let s := set_maxPages
             (num_or_null (match info data with
                           | Some i => info_maxPages i
                           | None => None
                           end)) s in
  match scripts data with
  | first :: _ =>
      set_newestTimestamp
        (js_or (js_or (createdAt first) (date first)) (newestTimestamp s)) s
  | [] => s
  end.

(** The [try] block of [loadPage] after [await fetchScripts(page)]: an
    exception out of [applySearchFilter()] is caught by [loadPage], which
    shows the error banner, and the statements after it do not run. *)
Definition loadPage_apply (page : N) (data : page_result) (s : state) : state :=
  let s := set_allScripts (scripts data) s in
  match applySearchFilter s with
  | (Normal _, s) => loadPage_tail page data s
  | (Throw _, s) => s
  end.

Definition loadPage (page : N) : async unit :=
  c <- fetchScripts page ;;
  match c with
  | Normal data => update (loadPage_apply page data)
  | Throw _ => ret tt
  end.

(** ** Incremental update detector *)

(** [timestamp && timestamp > newestTimestamp] *)
Definition newer (timestamp newestTimestamp : jsval) : bool :=
  truthy timestamp && js_gt timestamp newestTimestamp.

(** The [for ... of] loop over [data.scripts], from the current watermark and
    the items accumulated so far; it yields the watermark and [newItems] at
    the end of the loop. *)
Fixpoint scan (page : list script) (newest : jsval) (newItems : list script)
  : jsval * list script :=
  match page with
  | [] => (newest, newItems)
  | sc :: rest =>
      let timestamp := timestamp_of sc in
      if negb (truthy newest) then (timestamp, newItems)
      else if newer timestamp newest then scan rest newest (newItems ++ [sc])
      else (newest, newItems)
  end.

(** The [try] block of [pollForNewScripts] after [await fetchScripts(1)]:
    an exception out of [applySearchFilter()] is caught and logged by
    [pollForNewScripts], and [showNewCount] is not reached. *)
Definition poll_apply (data : page_result) (s : state) : state :=
  match scripts data with
  | [] => s
  | first :: _ =>
      let '(newest, newItems) := scan (scripts data) (newestTimestamp s) [] in
      let s := set_newestTimestamp newest s in
      if (0 <? length newItems)%nat then
        let s := set_allScripts (rev newItems ++ allScripts s) s in
        let s := set_newestTimestamp
                   (js_or (js_or (createdAt first) (date first))
                          (newestTimestamp s)) s in
        match applySearchFilter s with
        | (Normal _, s) => showNewCount (length newItems) s
        | (Throw _, s) => s
        end
      else s
  end.

Definition pollForNewScripts : async unit :=
  fun s =>
    if negb (autoRefresh s) then Done tt s
    else
      (c <- fetchScripts 1 ;;
       match c with
       | Normal data => update (poll_apply data)
       | Throw _ => ret tt
       end) s.

(** The items a detector cycle accumulates in [newItems]; none when the
    cycle returns before the loop. *)
Definition accumulated (data : page_result) (s : state) : list script :=
  match scripts data with
  | [] => []
  | _ :: _ => snd (scan (scripts data) (newestTimestamp s) [])
  end.

(** The state after a merge of the accumulated items [new]. *)
Definition merged (first : script) (new : list script) (s : state) : state :=
  match applySearchFilter
          (set_newestTimestamp (timestamp_of first)
             (set_allScripts (rev new ++ allScripts s) s)) with
  | (Normal _, s) => showNewCount (length new) s
  | (Throw _, s) => s
  end.

End Viewer.

(** ** Derived notions used in the statements *)

(** The page result a settled request is turned into. *)
Definition received (r : response) : page_result :=
  match fetch_completion r with
  | Normal d => d
  | Throw _ => empty_result
  end.

(** A request fails in transport, by its status, or by its payload. *)
Inductive failed : response -> Prop :=
| failed_transport : failed Rejected
| failed_status status body : ok status = false -> failed (Resolved status body)
| failed_syntax status : failed (Resolved status None)
| failed_not_object status : failed (Resolved status (Some NotAnObject))
| failed_no_list status i : failed (Resolved status (Some (Object None i))).

(** The longest prefix of the page made of items newer than the watermark. *)
Fixpoint newer_prefix (w : jsval) (page : list script) : list script :=
  match page with
  | [] => []
  | sc :: rest =>
      if newer (timestamp_of sc) w then sc :: newer_prefix w rest else []
  end.

(** A sequence of items is timestamp-descending when no item is followed,
    at any distance, by one that compares newer. *)
Fixpoint descending (l : list script) : bool :=
  match l with
  | [] => true
  | a :: rest =>
      forallb (fun b => negb (newer (timestamp_of b) (timestamp_of a))) rest
      && descending rest
  end.

(** No item of [l2] is newer than an item of [l1]. *)
Definition none_newer (l1 l2 : list script) : bool :=
  forallb (fun a =>
    forallb (fun b => negb (newer (timestamp_of b) (timestamp_of a))) l2) l1.

(** ** Concrete data for the examples *)

Module Examples.

(** ASCII-only stand-ins for the host's string built-ins. *)
Definition lower (c : N) : N :=
  if (65 <=? c) && (c <=? 90) then c + 32 else c.

Definition is_space (c : N) : bool :=
  (c =? 32) || (c =? 9) || (c =? 10) || (c =? 13).

Fixpoint drop_spaces (s : jsstring) : jsstring :=
  match s with
  | c :: s' => if is_space c then drop_spaces s' else s
  | [] => []
  end.

Definition ascii_ops : StringOps :=
  {| toLowerCase := map lower;
     trim := fun s => rev (drop_spaces (rev (drop_spaces s))) |}.

Definition item (id : string) (created : jsval) : script :=
  {| _id := JStr (lit id); title := JStr (lit id); description := JUndefined;
     creator := JStr (lit "someone"); user := None;
     createdAt := created; date := JUndefined;
     image := JUndefined; rawScript := JUndefined; language := JNull |}.

Definition t3 : jsstring := lit "2024-01-03T10:00:00.000Z".
Definition t4 : jsstring := lit "2024-01-04T10:00:00.000Z".
Definition t5 : jsstring := lit "2024-01-05T10:00:00.000Z".
Definition t9 : jsstring := lit "2024-01-09T10:00:00.000Z".

Definition i3 : script := item "c" (JStr t3).
Definition i4 : script := item "d" (JStr t4).
Definition i5 : script := item "e" (JStr t5).
Definition i9 : script := item "late" (JStr t9).

(** An item that carries no timestamp at all. *)
Definition undated : script := item "undated" JUndefined.

(** An item of [t5] whose creator is a lone high surrogate: its card does
    not render. *)
Definition unrenderable : script :=
  {| _id := JStr (lit "bad"); title := JStr (lit "bad");
     description := JUndefined;
     creator := JStr [55296]; user := None;
     createdAt := JStr t5; date := JUndefined;
     image := JUndefined; rawScript := JUndefined; language := JNull |}.

(** A server that answers every request with the page [l]. *)
Definition serve (l : list script) : request -> response :=
  fun _ => Resolved 200 (Some (Object (Some l) None)).

(** A server that answers with an empty page and its pagination data. *)
Definition serve_empty : request -> response :=
  fun _ => Resolved 200 (Some (Object (Some [])
             (Some {| info_currentPage := None; info_maxPages := None |}))).

Definition unreachable : request -> response := fun _ => Rejected.

Definition server_error : request -> response := fun _ => Resolved 503 None.

(** The page after a load of [[i3]]: watermark [t3], collection [[i3]]. *)
Definition loaded3 : state :=
  final (serve [i3]) (loadPage (ops := ascii_ops) 1) initial.

End Examples.

(** ** HTML escaping *)

(** The replacement of one code unit by [escapeHtml]: the ampersand, the two
    angle brackets, the double quote and the apostrophe become their
    references, the others stay. *)
Definition escape_unit (c : N) : jsstring :=
  if c =? 38 then lit "&amp;"
  else if c =? 60 then lit "&lt;"
  else if c =? 62 then lit "&gt;"
  else if c =? 34 then lit "&quot;"
  else if c =? 39 then lit "&#39;"
  else [c].

(** [escapeHtml(str)], on a value that is absent, [null] or a string. *)
Definition escapeHtml (str : jsval) : jsstring :=
  if negb (truthy str) then []
  else
    match str with
    | JStr s => flat_map escape_unit s
    | _ => []
    end.

(** [escapeAttr(str)]: [escapeHtml(str)] with every double quote replaced
    by its reference. *)
Definition escapeAttr (str : jsval) : jsstring :=
  flat_map (fun c => if c =? 34 then lit "&quot;" else [c]) (escapeHtml str).

(** The five code units [escapeHtml] replaces. *)
Definition special (c : N) : bool :=
  (c =? 38) || (c =? 60) || (c =? 62) || (c =? 34) || (c =? 39).

(** The code units that open or close a tag or an attribute value. *)
Definition markup (c : N) : bool :=
  (c =? 60) || (c =? 62) || (c =? 34) || (c =? 39).

(** ** The texts of a card *)

(** The constants [thumbnail] and [description] of [renderScriptCard]. *)
Definition card_thumbnail (sc : script) : jsval :=
  js_or (image sc)
    (JStr (lit "https://via.placeholder.com/300x200/0a0e1a/7c3aed?text=No+Image")).

Definition card_description (sc : script) : jsstring :=
  if truthy (description sc)
  then
    match description sc with
    | JStr d =>
        if (120 <? length d)%nat then firstn 120 d ++ lit "..." else d
    | _ => []
    end
  else lit "No description available".

(** The texts [renderScriptCard] writes between the tags of the card. *)
Definition card_title_html (sc : script) : jsstring :=
  escapeHtml (js_or (title sc) (JStr (lit "Untitled Script"))).

Definition card_id_html (sc : script) : jsstring :=
  escapeHtml (js_or (_id sc) (JStr (lit "N/A"))).

Definition card_author_html (sc : script) : jsstring :=
  escapeHtml (card_author sc).

Definition card_description_html (sc : script) : jsstring :=
  escapeHtml (JStr (card_description sc)).

(** ** The code view of a card *)

Fixpoint str_eqb (x y : jsstring) : bool :=
  match x, y with
  | [], [] => true
  | a :: x', b :: y' => (a =? b) && str_eqb x' y'
  | _, _ => false
  end.

(** What [attachCardEvents] reads and writes: the inline [display] of the
    code block, the text of the button, the text of the code block and its
    [data-rawurl] attribute. *)
Record card : Type := {
  display : jsstring;
  buttonText : jsstring;
  codeText : jsstring;
  rawurl : jsstring
}.

(** The card as [renderScriptCard] builds it: no inline style yet. *)
Definition fresh_card (url : jsstring) : card :=
  {| display := []; buttonText := lit "Show Code";
     codeText := lit "Loading code..."; rawurl := url |}.

Definition set_display (v : jsstring) (c : card) : card :=
  {| display := v; buttonText := buttonText c; codeText := codeText c;
     rawurl := rawurl c |}.

Definition set_buttonText (v : jsstring) (c : card) : card :=
  {| display := display c; buttonText := v; codeText := codeText c;
     rawurl := rawurl c |}.

Definition set_codeText (v : jsstring) (c : card) : card :=
  {| display := display c; buttonText := buttonText c; codeText := v;
     rawurl := rawurl c |}.

(** The body of [response.text()]: the text, or the message of the error it
    rejects with. *)
Inductive raw_body : Type :=
| Text (code : jsstring)
| TextFailed (message : jsstring).

(** The outcome of [fetch(rawUrl)]. *)
Inductive raw_response : Type :=
| RawRejected (message : jsstring)
| RawResolved (status : N) (body : raw_body).

(** [`${n}`] for a number that is a natural. *)
Definition decimal (n : N) : jsstring :=
  lit (NilZero.string_of_uint (N.to_uint n)).

(** The click handler after [await fetch(rawUrl)], on the card as it is when
    the handler resumes. *)
Definition click_resume (r : raw_response) (c : card) : card :=
  let c :=
    match r with
    | RawRejected message =>
        set_codeText (lit "// Error loading code: " ++ message) c
    | RawResolved status body =>
        if ok status then
          match body with
          | Text code => set_codeText (firstn (N.to_nat 15000) code) c
          | TextFailed message =>
              set_codeText (lit "// Error loading code: " ++ message) c
          end
        else
          set_codeText
            (lit "// Failed to load code (HTTP " ++ decimal status ++ lit ")") c
    end in
  set_buttonText (lit "Hide Code") c.

(** The answers after which the code block holds an error text. *)
Definition raw_failed (r : raw_response) : bool :=
  match r with
  | RawRejected _ => true
  | RawResolved status body =>
      negb (ok status)
      || match body with
         | TextFailed _ => true
         | Text _ => false
         end
  end.

Section CodeView.

Context {ops : StringOps}.

(** The click handler up to its [await]: the card it leaves and, when it
    awaits, the address it requested. *)
Definition click (c : card) : card * option jsstring :=
  let isVisible := negb (str_eqb (display c) (lit "none")) in
  if isVisible then
    (set_buttonText (lit "Show Code") (set_display (lit "none") c), None)
  else
    let c := set_buttonText (lit "Hide Code") (set_display (lit "block") c) in
    if str_eqb (trim (codeText c)) (lit "Loading code...") then
      match rawurl c with
      | _ :: _ => (set_buttonText (lit "Loading...") c, Some (rawurl c))
      | [] => (set_codeText (lit "// No raw script URL available") c, None)
      end
    else (c, None).

(** A click whose request, if any, is answered by [r] before anything else
    happens to the card. *)
Definition click_through (r : raw_response) (c : card) : card :=
  match click c with
  | (c', Some _) => click_resume r c'
  | (c', None) => c'
  end.

End CodeView.

(** ** Timers and event handlers *)

(** The interval timers of the window: [intervals] holds the running ones
    with their delays in milliseconds, [next_id] is the next identifier
    [setInterval] hands out. *)
Record timers : Type := {
  pollIntervalSeconds : N;
  pollTimer : option nat;
  intervals : list (nat * N);
  next_id : nat
}.

Definition clearInterval (id : option nat) (t : timers) : timers :=
  match id with
  | Some i =>
      {| pollIntervalSeconds := pollIntervalSeconds t;
         pollTimer := pollTimer t;
         intervals := filter (fun e => negb (fst e =? i)%nat) (intervals t);
         next_id := next_id t |}
  | None => t
  end.

Definition setInterval (delay : N) (t : timers) : nat * timers :=
  (next_id t,
   {| pollIntervalSeconds := pollIntervalSeconds t;
      pollTimer := pollTimer t;
      intervals := intervals t ++ [(next_id t, delay)];
      next_id := S (next_id t) |}).

Definition set_pollTimer (v : option nat) (t : timers) : timers :=
  {| pollIntervalSeconds := pollIntervalSeconds t; pollTimer := v;
     intervals := intervals t; next_id := next_id t |}.

Definition set_pollIntervalSeconds (v : N) (t : timers) : timers :=
  {| pollIntervalSeconds := v; pollTimer := pollTimer t;
     intervals := intervals t; next_id := next_id t |}.

(** [startPolling()], given the value of [autoRefresh]. *)
Definition startPolling (auto : bool) (t : timers) : timers :=
  let t :=
    match pollTimer t with
    | Some (S _ as id) => clearInterval (Some id) t
    | _ => t
    end in
  if negb auto then t
  else
    let '(id, t) := setInterval (pollIntervalSeconds t * 1000) t in
    set_pollTimer (Some id) t.

Definition set_searchQuery (v : jsstring) (s : state) : state :=
  {| currentPage := currentPage s; maxPages := maxPages s;
     autoRefresh := autoRefresh s;
     newestTimestamp := newestTimestamp s; allScripts := allScripts s;
     filteredScripts := filteredScripts s; searchQuery := v;
     newCountBadge := newCountBadge s |}.

(** The [disabled] flags [updatePageStatus] gives the two page buttons. *)
Definition prevDisabled (s : state) : bool := currentPage s <=? 1.

Definition nextDisabled (s : state) : bool :=
  match maxPages s with
  | Some 0 | None => false
  | Some m => m <=? currentPage s
  end.

(** The guards of the handlers of the two page buttons:
    [currentPage > 1] and [!maxPages || currentPage < maxPages]. *)
Definition prevAllowed (s : state) : bool := 1 <? currentPage s.

Definition nextAllowed (s : state) : bool :=
  match maxPages s with
  | Some 0 | None => true
  | Some m => currentPage s <? m
  end.

(** The page: the script-level variables and the timers. *)
Record window : Type := {
  vars : state;
  clock : timers
}.

Definition start : window :=
  {| vars := initial;
     clock := {| pollIntervalSeconds := 3600; pollTimer := None;
                 intervals := []; next_id := 1 |} |}.

(** What can happen to the page: the handlers registered on
    [DOMContentLoaded], the initial load, and the callbacks of the timers.
    An event that fetches carries the network that answers it. *)
Inductive event : Type :=
| Init (net : request -> response)
| SearchInput (value : jsstring)
| ClearSearch
| Refresh (net : request -> response)
| ToggleAutorefresh
| IntervalChange (seconds : N)
| PrevPage (net : request -> response)
| NextPage (net : request -> response)
| BadgeClick
| PollTick (net : request -> response)
| BadgeTimeout.

Section Handlers.

Context {ops : StringOps}.

(** The handler of each event, run to its end with no other event in
    between.  An exception out of [applySearchFilter()] ends a search
    handler after the view is assigned.  The page number is a double:
    [currentPage--] and [currentPage++] give the double nearest to the exact
    result. *)
Definition handle (e : event) (a : window) : window :=
  let s := vars a in
  match e with
  | Init net =>
      let s := final net (loadPage 1) s in
      {| vars := s; clock := startPolling (autoRefresh s) (clock a) |}
  | SearchInput value =>
      {| vars := snd (applySearchFilter (set_searchQuery value s));
         clock := clock a |}
  | ClearSearch =>
      {| vars := snd (applySearchFilter (set_searchQuery [] s));
         clock := clock a |}
  | Refresh net =>
      {| vars := final net (loadPage (currentPage s)) s; clock := clock a |}
  | ToggleAutorefresh =>
      let s := set_autoRefresh (negb (autoRefresh s)) s in
      {| vars := s;
         clock := if autoRefresh s then startPolling (autoRefresh s) (clock a)
                  else clearInterval (pollTimer (clock a)) (clock a) |}
  | IntervalChange seconds =>
      {| vars := s;
         clock := startPolling (autoRefresh s)
                    (set_pollIntervalSeconds seconds (clock a)) |}
  | PrevPage net =>
      if prevAllowed s then
        let s := set_currentPage (to_double (currentPage s - 1)) s in
        {| vars := final net (loadPage (currentPage s)) s; clock := clock a |}
      else a
  | NextPage net =>
      if nextAllowed s then
        let s := set_currentPage (to_double (currentPage s + 1)) s in
        {| vars := final net (loadPage (currentPage s)) s; clock := clock a |}
      else a
  | BadgeClick => {| vars := showNewCount 0 s; clock := clock a |}
  | PollTick net => {| vars := final net pollForNewScripts s; clock := clock a |}
  | BadgeTimeout => {| vars := showNewCount 0 s; clock := clock a |}
  end.

Definition run_events (evs : list event) (a : window) : window :=
  fold_left (fun a e => handle e a) evs a.

End Handlers.



(** A page of which every card renders. *)
Definition renderable (page : list script) : Prop :=
  forall sc, In sc page -> renderScriptCard sc = Normal tt.


(** The events whose handler goes through [startPolling] or
    [clearInterval]. *)
Definition reschedules (e : event) : bool :=
  match e with
  | Init _ | ToggleAutorefresh | IntervalChange _ => true
  | _ => false
  end.

(** At most one interval timer runs, the one [pollTimer] names, and none
    when auto-refresh is off. *)
Definition one_timer (auto : bool) (t : timers) : Prop :=
  (1 <= next_id t)%nat
  /\ (intervals t = []
      \/ exists id d, (1 <= id)%nat /\ pollTimer t = Some id
                      /\ intervals t = [(id, d)])
  /\ (auto = false -> intervals t = []).


(** ** The fetcher *)

Lemma fetch_completion_received (r : response) :
  fetch_completion r = Normal (received r).
Proof.
  unfold received, fetch_completion, fetch_try.
  destruct r as [|status [[|[l|] i]|]]; simpl; try reflexivity;
    destruct (ok status); reflexivity.
Qed.

Lemma failed_received (r : response) : failed r -> received r = empty_result.
Proof.
  intros H. unfold received, fetch_completion, fetch_try.
  destruct H; simpl; try reflexivity;
    try (destruct (ok status); reflexivity).
  rewrite H. reflexivity.
Qed.

Lemma run_fetchScripts net page s :
  run net (fetchScripts page) s
  = (Normal (received (net (page_url page))), s, [page_url page]).
Proof.
  unfold run, fetchScripts. simpl.
  rewrite fetch_completion_received. reflexivity.
Qed.

(** C6: whatever way the request fails (transport, status outside 200-299,
    body that is not JSON or has no item list), [fetchScripts] completes
    normally, it never throws, with [{ scripts: [], info: {} }], and leaves
    the state alone; a successful answer carrying an empty list and empty
    metadata gives the very same value, so the value does not tell the two
    apart. *)
Theorem fetchScripts_failure_is_empty :
  forall net page s,
    failed (net (page_url page)) ->
    run net (fetchScripts page) s = (Normal empty_result, s, [page_url page])
    /\ scripts empty_result = []
    /\ run Examples.serve_empty (fetchScripts page) s
       = run net (fetchScripts page) s.
Proof.
  intros net page s H.
  rewrite !run_fetchScripts, (failed_received _ H).
  repeat split.
Qed.

Lemma fetchScripts_failure_is_empty_witness :
  failed (Examples.server_error (page_url 2))
  /\ run Examples.server_error (fetchScripts 2) initial
     = (Normal empty_result, initial, [page_url 2]).
Proof.
  split.
  - apply failed_status. reflexivity.
  - apply (fetchScripts_failure_is_empty Examples.server_error 2 initial).
    apply failed_status. reflexivity.
Defined.

(** ** The order on timestamps *)

Lemma str_ltb_irrefl (x : jsstring) : str_ltb x x = false.
Proof.
  induction x as [|a x IH]; simpl; [reflexivity|].
  rewrite N.ltb_irrefl. exact IH.
Qed.

Lemma str_ltb_trans (x y z : jsstring) :
  str_ltb x y = true -> str_ltb y z = true -> str_ltb x z = true.
Proof.
  revert y z.
  induction x as [|a x IH]; intros [|b y] [|c z]; simpl; try congruence.
  destruct (N.ltb_spec a b), (N.ltb_spec b a), (N.ltb_spec b c),
    (N.ltb_spec c b), (N.ltb_spec a c), (N.ltb_spec c a);
    try congruence; try lia.
  apply IH.
Qed.

Lemma str_ltb_total (x y : jsstring) :
  str_ltb x y = false -> str_ltb y x = false -> x = y.
Proof.
  revert y.
  induction x as [|a x IH]; intros [|b y]; simpl; try congruence.
  destruct (N.ltb_spec a b), (N.ltb_spec b a); try congruence; try lia.
  intros H1 H2. f_equal; [lia | now apply IH].
Qed.

Lemma newer_irrefl (t : jsval) : newer t t = false.
Proof.
  unfold newer, js_gt.
  destruct t as [| |s]; simpl; try reflexivity.
  rewrite str_ltb_irrefl. apply andb_false_r.
Qed.

(** A value newer than something is a non-empty string. *)
Lemma newer_truthy (t w : jsval) : newer t w = true -> truthy t = true.
Proof. unfold newer. intros H. now apply andb_true_iff in H. Qed.

Lemma js_or_truthy (a b : jsval) : truthy a = true -> js_or a b = a.
Proof. unfold js_or. now intros ->. Qed.

(** ** The scan *)

Lemma scan_unset (sc : script) rest w acc :
  truthy w = false -> scan (sc :: rest) w acc = (timestamp_of sc, acc).
Proof. intros H. simpl. now rewrite H. Qed.

Lemma scan_set page w acc :
  truthy w = true -> scan page w acc = (w, acc ++ newer_prefix w page).
Proof.
  intros H. revert acc.
  induction page as [|sc rest IH]; intros acc; simpl.
  - now rewrite app_nil_r.
  - rewrite H. simpl.
    destruct (newer (timestamp_of sc) w).
    + rewrite IH, <- app_assoc. reflexivity.
    + now rewrite app_nil_r.
Qed.


Lemma newer_prefix_all w page :
  forallb (fun sc => newer (timestamp_of sc) w) (newer_prefix w page) = true.
Proof.
  induction page as [|sc rest IH]; simpl; [reflexivity|].
  destruct (newer (timestamp_of sc) w) eqn:E; simpl; [|reflexivity].
  now rewrite E.
Qed.

(** The accumulated items are a prefix of the page. *)
Lemma newer_prefix_prefix w page :
  exists rest, page = newer_prefix w page ++ rest.
Proof.
  induction page as [|sc page [rest IH]]; simpl.
  - now exists [].
  - destruct (newer (timestamp_of sc) w).
    + exists rest. simpl. now f_equal.
    + now exists (sc :: page).
Qed.

(** ** Running the operations *)

Lemma set_newestTimestamp_same (s : state) :
  set_newestTimestamp (newestTimestamp s) s = s.
Proof. now destruct s. Qed.

Section Operations.

Context {ops : StringOps}.

Lemma run_pollForNewScripts net s :
  run net pollForNewScripts s
  = if autoRefresh s
    then (tt, poll_apply (received (net (page_url 1))) s, [page_url 1])
    else (tt, s, []).
Proof.
  unfold run, pollForNewScripts.
  destruct (autoRefresh s); simpl; [|reflexivity].
  rewrite fetch_completion_received. reflexivity.
Qed.

Lemma final_poll_on net s :
  autoRefresh s = true ->
  final net pollForNewScripts s = poll_apply (received (net (page_url 1))) s.
Proof.
  intros H. unfold final. now rewrite run_pollForNewScripts, H.
Qed.

Lemma run_loadPage net page s :
  run net (loadPage page) s
  = (tt, loadPage_apply page (received (net (page_url page))) s,
     [page_url page]).
Proof.
  unfold run, loadPage. simpl.
  rewrite fetch_completion_received. reflexivity.
Qed.

Lemma final_loadPage net page s :
  final net (loadPage page) s
  = loadPage_apply page (received (net (page_url page))) s.
Proof. unfold final. now rewrite run_loadPage. Qed.

(** The filter and the badge leave the collection and the watermark alone. *)
Lemma filter_view_frame s :
  allScripts (filter_view s) = allScripts s
  /\ newestTimestamp (filter_view s) = newestTimestamp s
  /\ newCountBadge (filter_view s) = newCountBadge s.
Proof. unfold filter_view. destruct (trim (searchQuery s)); now simpl. Qed.

Lemma showNewCount_frame n s :
  allScripts (showNewCount n s) = allScripts s
  /\ newestTimestamp (showNewCount n s) = newestTimestamp s.
Proof. unfold showNewCount. destruct (0 <? n)%nat; now simpl. Qed.

(** A cycle on a non-empty page with no watermark yet. *)
Lemma poll_apply_unset data first rest s :
  scripts data = first :: rest ->
  truthy (newestTimestamp s) = false ->
  poll_apply data s = set_newestTimestamp (timestamp_of first) s.
Proof.
  intros Hd Hw. unfold poll_apply. rewrite Hd.
  now rewrite (scan_unset _ _ _ _ Hw).
Qed.

(** [applySearchFilter()] leaves the state with the view assigned, whether
    the rendering returns or throws. *)
Lemma applySearchFilter_cases s :
  (renderFilteredScripts (filter_view s) = Normal tt
   /\ applySearchFilter s = (Normal tt, filter_view s))
  \/ (exists e, renderFilteredScripts (filter_view s) = Throw e
                /\ applySearchFilter s = (Throw e, filter_view s)).
Proof.
  unfold applySearchFilter.
  destruct (renderFilteredScripts (filter_view s)) as [[]|e];
    [left | right; exists e]; now split.
Qed.

Lemma showNewCount_view n s :
  filteredScripts (showNewCount n s) = filteredScripts s.
Proof. unfold showNewCount. now destruct (0 <? n)%nat. Qed.

Lemma filter_view_query s : searchQuery (filter_view s) = searchQuery s.
Proof. unfold filter_view. now destruct (trim (searchQuery s)). Qed.

(** The state after a merge: the view is the filtered collection; the
    badge is raised when the rendering returned and left alone when it
    threw. *)
Lemma merged_view first new s :
  filteredScripts (merged first new s)
  = filteredScripts
      (filter_view (set_newestTimestamp (timestamp_of first)
                      (set_allScripts (rev new ++ allScripts s) s)))
  /\ searchQuery (merged first new s) = searchQuery s
  /\ (merged first new s
      = showNewCount (length new)
          (filter_view (set_newestTimestamp (timestamp_of first)
                          (set_allScripts (rev new ++ allScripts s) s)))
      \/ merged first new s
         = filter_view (set_newestTimestamp (timestamp_of first)
                          (set_allScripts (rev new ++ allScripts s) s))).
Proof.
  unfold merged.
  set (x := set_newestTimestamp (timestamp_of first)
              (set_allScripts (rev new ++ allScripts s) s)).
  destruct (applySearchFilter_cases x) as [[_ ->]|(e & _ & ->)].
  - rewrite showNewCount_view. split; [reflexivity|]. split; [|now left].
    unfold showNewCount. destruct (0 <? length new)%nat; apply (filter_view_query x).
  - split; [reflexivity|]. split; [apply (filter_view_query x) | now right].
Qed.

Lemma merged_frame first new s :
  allScripts (merged first new s) = rev new ++ allScripts s
  /\ newestTimestamp (merged first new s) = timestamp_of first
  /\ (new <> [] ->
      renderFilteredScripts (merged first new s) = Normal tt ->
      newCountBadge (merged first new s) = Some (length new)).
Proof.
  unfold merged.
  set (x := set_newestTimestamp (timestamp_of first)
              (set_allScripts (rev new ++ allScripts s) s)).
  destruct (filter_view_frame x) as (Ha & Hw & _).
  destruct (applySearchFilter_cases x) as [[_ ->]|(e & He & ->)].
  - destruct (showNewCount_frame (length new) (filter_view x)) as [-> ->].
    rewrite Ha, Hw. split; [reflexivity|]. split; [reflexivity|].
    intros Hne _. unfold showNewCount.
    destruct new; [congruence | reflexivity].
  - rewrite Ha, Hw. split; [reflexivity|]. split; [reflexivity|].
    intros _ Hr. rewrite He in Hr. discriminate.
Qed.


(** A cycle on a non-empty page with a watermark: either no item is newer
    and nothing changes, or the newer items are merged. *)
Lemma poll_apply_set data first rest s :
  scripts data = first :: rest ->
  truthy (newestTimestamp s) = true ->
  (newer_prefix (newestTimestamp s) (first :: rest) = []
   /\ poll_apply data s = s)
  \/ (newer_prefix (newestTimestamp s) (first :: rest) <> []
      /\ newer (timestamp_of first) (newestTimestamp s) = true
      /\ poll_apply data s
         = merged first (newer_prefix (newestTimestamp s) (first :: rest)) s).
Proof.
  intros Hd Hw. unfold poll_apply. rewrite Hd.
  rewrite (scan_set _ _ _ Hw). cbn [app].
  cbn [newer_prefix].
  destruct (newer (timestamp_of first) (newestTimestamp s)) eqn:E.
  - right. split; [discriminate|]. split; [reflexivity|].
    cbn [length Nat.ltb Nat.leb].
    cbn [newestTimestamp set_allScripts set_newestTimestamp].
    fold (timestamp_of first).
    rewrite (js_or_truthy _ _ (newer_truthy _ _ E)).
    reflexivity.
  - left. split; [reflexivity|].
    cbn [length Nat.ltb Nat.leb]. apply set_newestTimestamp_same.
Qed.

Lemma accumulated_set data s :
  truthy (newestTimestamp s) = true ->
  accumulated data s = newer_prefix (newestTimestamp s) (scripts data).
Proof.
  intros Hw. unfold accumulated.
  destruct (scripts data) eqn:E; [reflexivity|].
  now rewrite (scan_set _ _ _ Hw).
Qed.

Lemma accumulated_unset data s :
  truthy (newestTimestamp s) = false -> accumulated data s = [].
Proof.
  intros Hw. unfold accumulated.
  destruct (scripts data) eqn:E; [reflexivity|].
  now rewrite (scan_unset _ _ _ _ Hw).
Qed.

End Operations.

(** ** The detector cycle *)

Lemma str_ltb_truthy (x y : jsstring) :
  str_ltb x y = true -> truthy (JStr y) = true.
Proof. destruct x, y; simpl; congruence. Qed.

Lemma newer_prefix_skip w pre x post :
  newer (timestamp_of x) w = false ->
  newer_prefix w (pre ++ x :: post) = newer_prefix w pre.
Proof.
  intros Hx. induction pre as [|sc pre IH]; simpl.
  - now rewrite Hx.
  - destruct (newer (timestamp_of sc) w); [now f_equal | reflexivity].
Qed.

Section Detector.

Context {ops : StringOps}.

(** Whatever the cycle does, the collection it leaves is the accumulated
    items, reversed, in front of the collection it found. *)
Lemma poll_apply_collection data s :
  allScripts (poll_apply data s) = rev (accumulated data s) ++ allScripts s.
Proof.
  destruct (scripts data) as [|first rest] eqn:Hd.
  - unfold poll_apply, accumulated. now rewrite Hd.
  - destruct (truthy (newestTimestamp s)) eqn:Hw.
    + rewrite (accumulated_set _ _ Hw), Hd.
      destruct (poll_apply_set _ _ _ _ Hd Hw) as [[-> ->]|(_ & _ & ->)];
        [reflexivity | apply merged_frame].
    + rewrite (poll_apply_unset _ _ _ _ Hd Hw), (accumulated_unset _ _ Hw).
      reflexivity.
Qed.

(** When the cycle accumulates something, the watermark it leaves is the
    timestamp of the top item of the page, and that one is newer than the
    watermark it found. *)
Lemma poll_apply_watermark_advanced data first rest s :
  scripts data = first :: rest ->
  accumulated data s <> [] ->
  newestTimestamp (poll_apply data s) = timestamp_of first
  /\ newer (timestamp_of first) (newestTimestamp s) = true.
Proof.
  intros Hd Hacc.
  destruct (truthy (newestTimestamp s)) eqn:Hw.
  - rewrite (accumulated_set _ _ Hw), Hd in Hacc.
    destruct (poll_apply_set _ _ _ _ Hd Hw) as [[E _]|(_ & Hn & ->)];
      [congruence|].
    split; [apply merged_frame | exact Hn].
  - now rewrite (accumulated_unset _ _ Hw) in Hacc.
Qed.

(** When the cycle has a watermark and accumulates nothing, it changes
    nothing. *)
Lemma poll_apply_nothing_new data s :
  truthy (newestTimestamp s) = true ->
  accumulated data s = [] ->
  poll_apply data s = s.
Proof.
  intros Hw Hacc.
  destruct (scripts data) as [|first rest] eqn:Hd.
  - unfold poll_apply. now rewrite Hd.
  - rewrite (accumulated_set _ _ Hw), Hd in Hacc.
    destruct (poll_apply_set _ _ _ _ Hd Hw) as [[_ E]|(E & _)];
      [exact E | congruence].
Qed.




(** C3: bootstrap.  On a non-empty page and with no watermark set, the cycle
    adopts the timestamp of the top item as the watermark, the loop ends at
    that first item whatever follows it, nothing is accumulated and the
    collection is the one it was; only the watermark changes. *)
Theorem bootstrap_adopts_top_timestamp :
  forall net s first rest,
    autoRefresh s = true ->
    scripts (received (net (page_url 1))) = first :: rest ->
    truthy (newestTimestamp s) = false ->
    scan (first :: rest) (newestTimestamp s) [] = (timestamp_of first, [])
    /\ accumulated (received (net (page_url 1))) s = []
    /\ final net pollForNewScripts s
       = set_newestTimestamp (timestamp_of first) s
    /\ newestTimestamp (final net pollForNewScripts s) = timestamp_of first
    /\ allScripts (final net pollForNewScripts s) = allScripts s.
Proof.
  intros net s first rest Hon Hd Hw.
  rewrite (final_poll_on _ _ Hon), (poll_apply_unset _ _ _ _ Hd Hw).
  rewrite (accumulated_unset _ _ Hw), (scan_unset _ _ _ _ Hw).
  repeat split.
Qed.

(** C4: on the page [t5, t4, t3], descending, with the watermark at [t3],
    the cycle accumulates the items of [t5] and [t4], and the collection it
    leaves starts with the item of [t4], then the item of [t5], then the
    collection as it was. *)
Theorem merged_batch_is_reversed :
  forall net s i5 i4 i3 t5 t4 t3,
    autoRefresh s = true ->
    scripts (received (net (page_url 1))) = [i5; i4; i3] ->
    timestamp_of i5 = JStr t5 ->
    timestamp_of i4 = JStr t4 ->
    timestamp_of i3 = JStr t3 ->
    str_ltb t4 t5 = true ->
    str_ltb t3 t4 = true ->
    newestTimestamp s = JStr t3 ->
    truthy (JStr t3) = true ->
    accumulated (received (net (page_url 1))) s = [i5; i4]
    /\ allScripts (final net pollForNewScripts s) = [i4; i5] ++ allScripts s.
Proof.
  intros net s i5 i4 i3 t5 t4 t3 Hon Hd H5 H4 H3 L45 L34 Hw Ht.
  assert (Hacc : accumulated (received (net (page_url 1))) s = [i5; i4]).
  { rewrite accumulated_set by now rewrite Hw.
    rewrite Hd, Hw. simpl. rewrite H5, H4, H3.
    unfold newer, js_gt.
    rewrite (str_ltb_truthy _ _ L45), (str_ltb_truthy _ _ L34).
    rewrite (str_ltb_trans _ _ _ L34 L45), L34, str_ltb_irrefl.
    now rewrite andb_false_r. }
  split; [exact Hacc|].
  now rewrite (final_poll_on _ _ Hon), poll_apply_collection, Hacc.
Qed.


(** C8: with a watermark set, an item whose [createdAt] and [date] are both
    missing (falsy) is not newer than the watermark, and the loop ends at it:
    the accumulated items all come from before it in the page, so neither it
    nor any item after it reaches the collection. *)
Theorem missing_timestamp_ends_scan :
  forall net s pre x post,
    autoRefresh s = true ->
    truthy (newestTimestamp s) = true ->
    scripts (received (net (page_url 1))) = pre ++ x :: post ->
    truthy (timestamp_of x) = false ->
    newer (timestamp_of x) (newestTimestamp s) = false
    /\ (exists rest, pre = accumulated (received (net (page_url 1))) s ++ rest)
    /\ allScripts (final net pollForNewScripts s)
       = rev (accumulated (received (net (page_url 1))) s) ++ allScripts s.
Proof.
  intros net s pre x post Hon Hw Hd Hx.
  assert (Hn : newer (timestamp_of x) (newestTimestamp s) = false).
  { unfold newer. now rewrite Hx. }
  split; [exact Hn|]. split.
  - rewrite (accumulated_set _ _ Hw), Hd, (newer_prefix_skip _ _ _ _ Hn).
    apply newer_prefix_prefix.
  - rewrite (final_poll_on _ _ Hon). apply poll_apply_collection.
Qed.

(** C9: with auto-refresh off, [pollForNewScripts] finishes at once on the
    state it was called on, so no request is issued and the collection, the
    filtered view and the watermark are the ones it found. *)
Theorem poll_is_noop_when_autoRefresh_off :
  forall s,
    autoRefresh s = false ->
    pollForNewScripts s = Done tt s
    /\ forall net,
         requests net pollForNewScripts s = []
         /\ final net pollForNewScripts s = s
         /\ allScripts (final net pollForNewScripts s) = allScripts s
         /\ filteredScripts (final net pollForNewScripts s) = filteredScripts s
         /\ newestTimestamp (final net pollForNewScripts s) = newestTimestamp s.
Proof.
  intros s Hoff. split.
  - unfold pollForNewScripts. now rewrite Hoff.
  - intros net. unfold requests, final.
    rewrite run_pollForNewScripts, Hoff. simpl. repeat split.
Qed.

(** C7: a second cycle right after a first one, on the same answer from the
    server, accumulates nothing and leaves the state of the first cycle as it
    is, collection and watermark included. *)
Theorem poll_twice_same_page :
  forall net s,
    autoRefresh s = true ->
    accumulated (received (net (page_url 1))) (final net pollForNewScripts s) = []
    /\ final net pollForNewScripts (final net pollForNewScripts s)
       = final net pollForNewScripts s.
Proof.
  intros net s Hon.
  set (data := received (net (page_url 1))).
  assert (H1 : final net pollForNewScripts s = poll_apply data s)
    by apply (final_poll_on _ _ Hon).
  assert (H2 : forall s', poll_apply data s' = s' ->
                          final net pollForNewScripts s' = s').
  { intros s' E. unfold final. rewrite run_pollForNewScripts.
    destruct (autoRefresh s'); [exact E | reflexivity]. }
  rewrite H1.
  assert (Hacc : accumulated data (poll_apply data s) = []).
  { destruct (scripts data) as [|first rest] eqn:Hd.
    - unfold accumulated. now rewrite Hd.
    - destruct (truthy (newestTimestamp s)) eqn:Hw.
      + destruct (accumulated data s) as [|n new] eqn:Ha.
        * now rewrite (poll_apply_nothing_new _ _ Hw Ha).
        * destruct (poll_apply_watermark_advanced data first rest s Hd)
            as [Hts Hnew]; [congruence|].
          rewrite accumulated_set, Hts, Hd
            by (rewrite Hts; apply (newer_truthy _ _ Hnew)).
          simpl. now rewrite newer_irrefl.
      + rewrite (poll_apply_unset _ _ _ _ Hd Hw).
        destruct (truthy (timestamp_of first)) eqn:Hf.
        * rewrite accumulated_set by exact Hf.
          rewrite Hd. simpl. now rewrite newer_irrefl.
        * now apply accumulated_unset. }
  split; [exact Hacc|].
  apply H2.
  destruct (truthy (newestTimestamp (poll_apply data s))) eqn:Hw'.
  - now apply poll_apply_nothing_new.
  - destruct (scripts data) as [|first rest] eqn:Hd.
    + unfold poll_apply at 1. now rewrite Hd.
    + rewrite (poll_apply_unset _ _ _ _ Hd Hw').
      destruct (truthy (newestTimestamp s)) eqn:Hw.
      * destruct (accumulated data s) as [|n new] eqn:Ha.
        -- rewrite (poll_apply_nothing_new _ _ Hw Ha) in Hw'. congruence.
        -- destruct (poll_apply_watermark_advanced data first rest s Hd)
            as [Hts Hnew]; [congruence|].
           rewrite Hts in Hw'. rewrite (newer_truthy _ _ Hnew) in Hw'.
           discriminate.
      * now rewrite (poll_apply_unset _ _ _ _ Hd Hw).
Qed.

End Detector.

(** *** Runs of the detector on concrete pages *)

Lemma bootstrap_adopts_top_timestamp_witness :
  let s' := final (Examples.serve [Examples.i5; Examples.i4; Examples.i3])
              (pollForNewScripts (ops := Examples.ascii_ops)) initial in
  newestTimestamp s' = JStr Examples.t5 /\ allScripts s' = [].
Proof.
  destruct (bootstrap_adopts_top_timestamp (ops := Examples.ascii_ops)
              (Examples.serve [Examples.i5; Examples.i4; Examples.i3])
              initial Examples.i5 [Examples.i4; Examples.i3]
              eq_refl eq_refl eq_refl) as (_ & _ & _ & Hw & Hc).
  split; [exact Hw | exact Hc].
Defined.

Lemma merged_batch_is_reversed_witness :
  allScripts (final (Examples.serve [Examples.i5; Examples.i4; Examples.i3])
                (pollForNewScripts (ops := Examples.ascii_ops))
                Examples.loaded3)
  = [Examples.i4; Examples.i5; Examples.i3].
Proof.
  apply (merged_batch_is_reversed (ops := Examples.ascii_ops)
           (Examples.serve [Examples.i5; Examples.i4; Examples.i3])
           Examples.loaded3 Examples.i5 Examples.i4 Examples.i3
           Examples.t5 Examples.t4 Examples.t3);
    reflexivity.
Defined.


Lemma missing_timestamp_ends_scan_witness :
  allScripts
    (final (Examples.serve [Examples.i5; Examples.undated; Examples.i9])
       (pollForNewScripts (ops := Examples.ascii_ops)) Examples.loaded3)
  = [Examples.i5; Examples.i3].
Proof.
  destruct (missing_timestamp_ends_scan (ops := Examples.ascii_ops)
              (Examples.serve [Examples.i5; Examples.undated; Examples.i9])
              Examples.loaded3 [Examples.i5] Examples.undated [Examples.i9]
              eq_refl eq_refl eq_refl eq_refl) as (_ & _ & Hc).
  exact Hc.
Defined.

Lemma poll_is_noop_when_autoRefresh_off_witness :
  pollForNewScripts (ops := Examples.ascii_ops)
    (set_autoRefresh false Examples.loaded3)
  = Done tt (set_autoRefresh false Examples.loaded3).
Proof.
  apply (poll_is_noop_when_autoRefresh_off (ops := Examples.ascii_ops)
           (set_autoRefresh false Examples.loaded3)).
  reflexivity.
Defined.

Lemma poll_twice_same_page_witness :
  let net := Examples.serve [Examples.i5; Examples.i4; Examples.i3] in
  let s1 := final net (pollForNewScripts (ops := Examples.ascii_ops))
              Examples.loaded3 in
  accumulated (received (net (page_url 1))) s1 = []
  /\ final net (pollForNewScripts (ops := Examples.ascii_ops)) s1 = s1.
Proof.
  intros net s1.
  apply (poll_twice_same_page (ops := Examples.ascii_ops) net Examples.loaded3).
  reflexivity.
Defined.

(** ** Page loads *)

Section PageLoad.

Context {ops : StringOps}.

Lemma filter_view_nil s :
  allScripts s = [] -> filteredScripts (filter_view s) = [].
Proof.
  intros H. unfold filter_view.
  destruct (trim (searchQuery s)); simpl; now rewrite H.
Qed.

(** The two ways the statements of [loadPage] end: the rendering returns
    and the statements after it run, or it throws and they do not. *)
Lemma loadPage_apply_cases page data s :
  (renderFilteredScripts (filter_view (set_allScripts (scripts data) s))
   = Normal tt
   /\ loadPage_apply page data s
      = loadPage_tail page data
          (filter_view (set_allScripts (scripts data) s)))
  \/ (exists e,
        renderFilteredScripts (filter_view (set_allScripts (scripts data) s))
        = Throw e
        /\ loadPage_apply page data s
           = filter_view (set_allScripts (scripts data) s)).
Proof.
  unfold loadPage_apply.
  destruct (applySearchFilter_cases (set_allScripts (scripts data) s))
    as [[H ->]|(e & H & ->)]; [left | right; exists e]; now split.
Qed.

Lemma loadPage_tail_frame page data x :
  allScripts (loadPage_tail page data x) = allScripts x
  /\ filteredScripts (loadPage_tail page data x) = filteredScripts x
  /\ autoRefresh (loadPage_tail page data x) = autoRefresh x
  /\ searchQuery (loadPage_tail page data x) = searchQuery x
  /\ newCountBadge (loadPage_tail page data x) = newCountBadge x.
Proof. unfold loadPage_tail. destruct (scripts data); now repeat split. Qed.

Lemma loadPage_tail_watermark page data x :
  newestTimestamp (loadPage_tail page data x)
  = match scripts data with
    | first :: _ => js_or (timestamp_of first) (newestTimestamp x)
    | [] => newestTimestamp x
    end.
Proof. unfold loadPage_tail. now destruct (scripts data). Qed.

(** The collection, the view and the watermark after the statements of
    [loadPage]. *)
Lemma loadPage_apply_collection page data s :
  allScripts (loadPage_apply page data s) = scripts data.
Proof.
  destruct (filter_view_frame (set_allScripts (scripts data) s)) as (Ha & _).
  destruct (loadPage_apply_cases page data s) as [[_ ->]|(e & _ & ->)].
  - now rewrite (proj1 (loadPage_tail_frame _ _ _)), Ha.
  - exact Ha.
Qed.

Lemma loadPage_apply_view page data s :
  filteredScripts (loadPage_apply page data s)
  = filteredScripts (filter_view (set_allScripts (scripts data) s)).
Proof.
  destruct (loadPage_apply_cases page data s) as [[_ ->]|(e & _ & ->)];
    [apply loadPage_tail_frame | reflexivity].
Qed.

Lemma loadPage_apply_watermark page data s :
  newestTimestamp (loadPage_apply page data s)
  = match renderFilteredScripts (loadPage_apply page data s) with
    | Normal _ =>
        match scripts data with
        | first :: _ => js_or (timestamp_of first) (newestTimestamp s)
        | [] => newestTimestamp s
        end
    | Throw _ => newestTimestamp s
    end.
Proof.
  unfold renderFilteredScripts at 1. rewrite loadPage_apply_view.
  fold (renderFilteredScripts
          (filter_view (set_allScripts (scripts data) s))).
  destruct (filter_view_frame (set_allScripts (scripts data) s))
    as (_ & Hw & _).
  destruct (loadPage_apply_cases page data s) as [[-> ->]|(e & -> & ->)].
  - now rewrite loadPage_tail_watermark, Hw.
  - exact Hw.
Qed.

(** C10: when the fetch of [loadPage] gives no item, be it a failed request
    turned into the empty result or a page that is empty, the collection
    becomes the empty sequence whatever it held (and so does the filtered
    view), while the watermark keeps the value it had. *)
Theorem loadPage_empty_discards_collection :
  forall net page s,
    failed (net (page_url page))
    \/ scripts (received (net (page_url page))) = [] ->
    allScripts (final net (loadPage page) s) = []
    /\ filteredScripts (final net (loadPage page) s) = []
    /\ newestTimestamp (final net (loadPage page) s) = newestTimestamp s.
Proof.
  intros net page s H.
  assert (He : scripts (received (net (page_url page))) = []).
  { destruct H as [H|H]; [|exact H]. now rewrite (failed_received _ H). }
  rewrite final_loadPage, loadPage_apply_collection, loadPage_apply_view.
  rewrite loadPage_apply_watermark, He.
  split; [reflexivity|]. split; [now apply filter_view_nil|].
  now destruct (renderFilteredScripts _).
Qed.

End PageLoad.

Lemma loadPage_empty_discards_collection_witness :
  allScripts Examples.loaded3 = [Examples.i3]
  /\ allScripts (final Examples.unreachable
                   (loadPage (ops := Examples.ascii_ops) 1) Examples.loaded3)
     = []
  /\ newestTimestamp
       (final Examples.unreachable
          (loadPage (ops := Examples.ascii_ops) 1) Examples.loaded3)
     = JStr Examples.t3.
Proof.
  split; [reflexivity|].
  destruct (loadPage_empty_discards_collection (ops := Examples.ascii_ops)
              Examples.unreachable 1 Examples.loaded3
              (or_introl failed_transport)) as (Hc & _ & Hw).
  split; [exact Hc | exact Hw].
Defined.

(** ** Order of the collection *)

Lemma descending_app l1 l2 :
  descending (l1 ++ l2)
  = descending l1 && descending l2 && none_newer l1 l2.
Proof.
  induction l1 as [|a l1 IH]; simpl.
  - now rewrite andb_true_r.
  - rewrite forallb_app, IH.
    destruct (forallb _ l1), (descending l1), (descending l2),
      (forallb _ l2), (none_newer l1 l2); reflexivity.
Qed.

Lemma newer_asym_le a b w :
  newer a w = true -> newer b w = false -> newer b a = false.
Proof.
  unfold newer, js_gt.
  destruct a as [| |x], w as [| |y]; simpl; try (rewrite ?andb_false_r; congruence).
  destruct b as [| |z]; simpl; try reflexivity.
  destruct x as [|x0 x]; [simpl; congruence|].
  destruct z as [|z0 z]; [reflexivity|].
  cbn [truthy andb]. intros Hyx Hyz.
  destruct (str_ltb (x0 :: x) (z0 :: z)) eqn:E; [|reflexivity].
  now rewrite (str_ltb_trans _ _ _ Hyx E) in Hyz.
Qed.

Lemma newer_total a b w :
  newer a w = true -> newer b w = true ->
  newer a b = false -> newer b a = false -> a = b.
Proof.
  unfold newer, js_gt.
  destruct a as [| |x], b as [| |z], w as [| |y]; simpl;
    try (rewrite ?andb_false_r; congruence).
  destruct x as [|x0 x]; [simpl; congruence|].
  destruct z as [|z0 z]; [simpl; congruence|].
  cbn [truthy andb]. intros _ _ H1 H2. f_equal.
  now apply str_ltb_total.
Qed.

Lemma same_timestamp_descending l :
  (forall a b, In a l -> In b l -> timestamp_of a = timestamp_of b) ->
  descending l = true.
Proof.
  induction l as [|x l IH]; intros H; simpl; [reflexivity|].
  apply andb_true_iff. split.
  - apply forallb_forall. intros b Hb.
    rewrite (H b x (or_intror Hb) (or_introl eq_refl)).
    now rewrite newer_irrefl.
  - apply IH. intros a b Ha Hb. apply H; now right.
Qed.

Lemma descending_both_ways l :
  descending l = true -> descending (rev l) = true ->
  forall a b, In a l -> In b l ->
    newer (timestamp_of b) (timestamp_of a) = false.
Proof.
  induction l as [|x l IH]; intros Hd Hr a b Ha Hb; [destruct Ha|].
  simpl in Hd, Hr. apply andb_true_iff in Hd as [Hx Hd].
  rewrite descending_app in Hr.
  apply andb_true_iff in Hr as [Hr Hc].
  apply andb_true_iff in Hr as [Hr _].
  unfold none_newer in Hc.
  rewrite forallb_forall in Hx, Hc.
  destruct Ha as [<-|Ha], Hb as [<-|Hb].
  - apply newer_irrefl.
  - apply negb_true_iff. now apply Hx.
  - specialize (Hc a (proj1 (in_rev l a) Ha)).
    simpl in Hc. rewrite andb_true_r in Hc. now apply negb_true_iff.
  - now apply IH.
Qed.

Section CollectionOrder.

Context {ops : StringOps}.

(** C1, as the code has it: a cycle leaves the accumulated items, oldest
    first, in front of the collection it found.  With a page in descending
    order, a collection in descending order and no item of the collection
    newer than the watermark, the accumulated items are in descending order
    before they are reversed, and the collection left by the cycle is in
    descending order exactly when the accumulated items all carry the same
    timestamp, as they do when there is a single one. *)
Theorem merge_descending_iff_one_timestamp :
  forall net s,
    autoRefresh s = true ->
    descending (scripts (received (net (page_url 1)))) = true ->
    descending (allScripts s) = true ->
    forallb (fun sc => negb (newer (timestamp_of sc) (newestTimestamp s)))
            (allScripts s) = true ->
    let new := accumulated (received (net (page_url 1))) s in
    let s' := final net pollForNewScripts s in
    allScripts s' = rev new ++ allScripts s
    /\ descending new = true
    /\ (descending (allScripts s') = true
        <-> forall a b, In a new -> In b new -> timestamp_of a = timestamp_of b).
Proof.
  intros net s Hon Hpage Hold Hwm new s'.
  set (data := received (net (page_url 1))) in *.
  assert (Hc : allScripts s' = rev new ++ allScripts s).
  { subst s'. rewrite (final_poll_on _ _ Hon). apply poll_apply_collection. }
  assert (Hnew : new = [] \/
                 (forall a, In a new ->
                    newer (timestamp_of a) (newestTimestamp s) = true)
                 /\ exists rest, scripts data = new ++ rest).
  { destruct (truthy (newestTimestamp s)) eqn:Hw.
    - right. subst new. rewrite (accumulated_set _ _ Hw). split.
      + apply forallb_forall, newer_prefix_all.
      + apply newer_prefix_prefix.
    - left. now apply accumulated_unset. }
  split; [exact Hc|].
  destruct Hnew as [Hnil|[Hall [rest Hrest]]].
  { rewrite Hc, Hnil. simpl. split; [reflexivity|].
    split; [now intros _ a b []| now intros _]. }
  assert (Hdn : descending new = true).
  { rewrite Hrest, descending_app in Hpage.
    apply andb_true_iff in Hpage as [Hpage _].
    now apply andb_true_iff in Hpage as [Hpage _]. }
  split; [exact Hdn|].
  assert (Hcross : none_newer (rev new) (allScripts s) = true).
  { apply forallb_forall. intros a Ha. apply forallb_forall. intros b Hb.
    apply negb_true_iff.
    apply newer_asym_le with (w := newestTimestamp s).
    - apply Hall. now apply in_rev.
    - rewrite forallb_forall in Hwm. now apply negb_true_iff, Hwm. }
  rewrite Hc, descending_app, Hold, Hcross, !andb_true_r.
  split.
  - intros Hr a b Ha Hb.
    apply newer_total with (w := newestTimestamp s); auto.
    + now apply (descending_both_ways new Hdn Hr b a).
    + now apply (descending_both_ways new Hdn Hr a b).
  - intros Hsame. apply same_timestamp_descending.
    intros a b Ha Hb. apply Hsame; now apply in_rev.
Qed.

End CollectionOrder.

Lemma merge_descending_iff_one_timestamp_witness :
  let s' := final (Examples.serve [Examples.i5; Examples.i3])
              (pollForNewScripts (ops := Examples.ascii_ops))
              Examples.loaded3 in
  allScripts s' = [Examples.i5; Examples.i3]
  /\ descending (allScripts s') = true.
Proof.
  intros s'.
  destruct (merge_descending_iff_one_timestamp (ops := Examples.ascii_ops)
              (Examples.serve [Examples.i5; Examples.i3]) Examples.loaded3
              eq_refl eq_refl eq_refl eq_refl) as (Hc & _ & Hiff).
  split; [exact Hc|].
  apply Hiff. intros a b [<-|[]] [<-|[]]. reflexivity.
Defined.

(** C1 fails as stated: the page [[i5; i4; i3]] is in descending order and
    so is the collection [[i3]] behind the watermark [t3], yet the cycle
    leaves [[i4; i5; i3]], where the item of [t4] comes before the newer item
    of [t5]. *)
Lemma merge_of_two_breaks_descending :
  let net := Examples.serve [Examples.i5; Examples.i4; Examples.i3] in
  let s := Examples.loaded3 in
  let s' := final net (pollForNewScripts (ops := Examples.ascii_ops)) s in
  autoRefresh s = true
  /\ descending (scripts (received (net (page_url 1)))) = true
  /\ descending (allScripts s) = true
  /\ allScripts s' = [Examples.i4; Examples.i5; Examples.i3]
  /\ descending (allScripts s') = false.
Proof. repeat split. Qed.

(** The watermark has to bound the collection: after a load of a page whose
    top item has no timestamp the watermark stays unset, a first cycle adopts
    [t3], and the item of [t5] a second cycle finds lands in front of the
    item of [t9]. *)
Example merge_in_front_of_newer_item :
  let s0 := final (Examples.serve [Examples.undated; Examples.i9])
              (loadPage (ops := Examples.ascii_ops) 1) initial in
  let s1 := final (Examples.serve [Examples.i3])
              (pollForNewScripts (ops := Examples.ascii_ops)) s0 in
  let s2 := final (Examples.serve [Examples.i5; Examples.i3])
              (pollForNewScripts (ops := Examples.ascii_ops)) s1 in
  newestTimestamp s1 = JStr Examples.t3
  /\ descending (allScripts s1) = true
  /\ allScripts s2 = [Examples.i5; Examples.undated; Examples.i9]
  /\ descending (allScripts s2) = false.
Proof. repeat split. Qed.

(** ** The watermark *)


Section Watermark.

Context {ops : StringOps}.



End Watermark.



(** ** HTML escaping *)

Lemma escapeHtml_str (s : jsstring) :
  escapeHtml (JStr s) = flat_map escape_unit s.
Proof. now destruct s. Qed.

Lemma escapeHtml_falsy (v : jsval) : truthy v = false -> escapeHtml v = [].
Proof. unfold escapeHtml. now intros ->. Qed.

(** What [escape_unit] gives, case by case. *)
Lemma escape_unit_cases (c : N) :
  (special c = false /\ escape_unit c = [c])
  \/ (c = 38 /\ escape_unit c = lit "&amp;")
  \/ (c = 60 /\ escape_unit c = lit "&lt;")
  \/ (c = 62 /\ escape_unit c = lit "&gt;")
  \/ (c = 34 /\ escape_unit c = lit "&quot;")
  \/ (c = 39 /\ escape_unit c = lit "&#39;").
Proof.
  unfold escape_unit, special.
  destruct (N.eqb_spec c 38) as [->|]; [now right; left|].
  destruct (N.eqb_spec c 60) as [->|]; [now right; right; left|].
  destruct (N.eqb_spec c 62) as [->|]; [now right; right; right; left|].
  destruct (N.eqb_spec c 34) as [->|]; [now right; right; right; right; left|].
  destruct (N.eqb_spec c 39) as [->|]; [now right; right; right; right; right|].
  now left.
Qed.

Lemma escape_unit_no_markup (c : N) :
  forallb (fun d => negb (markup d)) (escape_unit c) = true.
Proof.
  destruct (escape_unit_cases c) as [[H ->]|[[_ ->]|[[_ ->]|[[_ ->]|[[_ ->]|[_ ->]]]]]];
    try reflexivity.
  simpl. rewrite andb_true_r. apply negb_true_iff.
  unfold special in H. unfold markup.
  destruct (c =? 38); [discriminate|]. exact H.
Qed.

(** X1: whatever the value, the text [escapeHtml] returns holds no opening
    or closing angle bracket, no double quote and no apostrophe. *)
Theorem escapeHtml_no_markup :
  forall v, forallb (fun d => negb (markup d)) (escapeHtml v) = true.
Proof.
  intros v. destruct (truthy v) eqn:T.
  - destruct v as [| |s]; try discriminate.
    rewrite escapeHtml_str. clear T.
    induction s as [|c s IH]; simpl; [reflexivity|].
    rewrite forallb_app, IH. now rewrite escape_unit_no_markup.
  - now rewrite escapeHtml_falsy.
Qed.

Lemma flat_map_unchanged (f : N -> jsstring) (l : jsstring) :
  (forall c, In c l -> f c = [c]) -> flat_map f l = l.
Proof.
  induction l as [|c l IH]; intros H; simpl; [reflexivity|].
  rewrite (H c (or_introl eq_refl)). simpl. f_equal.
  apply IH. intros d Hd. apply H. now right.
Qed.

(** X2: the second replacement of [escapeAttr] never finds a double quote,
    so [escapeAttr] returns what [escapeHtml] returns. *)
Theorem escapeAttr_is_escapeHtml :
  forall v, escapeAttr v = escapeHtml v.
Proof.
  intros v. unfold escapeAttr. apply flat_map_unchanged.
  intros c Hc.
  pose proof (escapeHtml_no_markup v) as H.
  rewrite forallb_forall in H. specialize (H c Hc).
  apply negb_true_iff in H. unfold markup in H.
  destruct (c =? 34); [|reflexivity].
  destruct (c =? 60), (c =? 62); discriminate.
Qed.

Lemma escape_unit_length (c : N) :
  (1 <= length (escape_unit c))%nat
  /\ (special c = true -> 4 <= length (escape_unit c))%nat.
Proof.
  destruct (escape_unit_cases c) as [[H ->]|[[-> ->]|[[-> ->]|[[-> ->]|[[-> ->]|[-> ->]]]]]];
    simpl; split; intros; try lia.
  congruence.
Qed.

Lemma escaped_length (s : jsstring) :
  (length s <= length (flat_map escape_unit s))%nat
  /\ (existsb special s = true ->
      length s < length (flat_map escape_unit s))%nat.
Proof.
  induction s as [|c s [IH1 IH2]]; simpl.
  - split; [lia | discriminate].
  - rewrite length_app.
    destruct (escape_unit_length c) as [H1 H4].
    split; [lia|].
    intros H. apply orb_true_iff in H as [H|H].
    + specialize (H4 H). lia.
    + specialize (IH2 H). lia.
Qed.

(** X3: [escapeHtml] returns a string as it is exactly when the string has
    none of the five characters; otherwise the result is longer. *)
Theorem escapeHtml_unchanged_iff :
  forall s,
    (escapeHtml (JStr s) = s <-> existsb special s = false)
    /\ (length s <= length (escapeHtml (JStr s)))%nat.
Proof.
  intros s. rewrite escapeHtml_str.
  destruct (escaped_length s) as [Hle Hlt]. split; [|exact Hle].
  split.
  - intros E. destruct (existsb special s) eqn:X; [|reflexivity].
    specialize (Hlt eq_refl). rewrite E in Hlt. lia.
  - intros X. apply flat_map_unchanged. intros c Hc.
    destruct (escape_unit_cases c) as [[_ E]|Hs]; [exact E|].
    assert (special c = true)
      by (destruct Hs as [[-> _]|[[-> _]|[[-> _]|[[-> _]|[-> _]]]]]; reflexivity).
    assert (existsb special s = true)
      by (apply existsb_exists; now exists c).
    congruence.
Qed.

Lemma escape_unit_inj_head (x y : N) (a b : jsstring) :
  escape_unit x ++ a = escape_unit y ++ b -> x = y /\ a = b.
Proof.
  destruct (escape_unit_cases x) as [[Hx ->]|[[-> ->]|[[-> ->]|[[-> ->]|[[-> ->]|[-> ->]]]]]];
  destruct (escape_unit_cases y) as [[Hy ->]|[[-> ->]|[[-> ->]|[[-> ->]|[[-> ->]|[-> ->]]]]]];
    simpl; intros H; injection H; intros; subst;
    try discriminate; try (split; reflexivity);
    try (now (exfalso; vm_compute in Hx; discriminate));
    try (now (exfalso; vm_compute in Hy; discriminate)).
Qed.

(** X4: [escapeHtml] loses nothing: two strings with the same escaped text
    are the same string. *)
Theorem escapeHtml_injective :
  forall a b, escapeHtml (JStr a) = escapeHtml (JStr b) -> a = b.
Proof.
  intros a b. rewrite !escapeHtml_str. revert b.
  induction a as [|x a IH]; intros [|y b]; simpl; intros H.
  - reflexivity.
  - destruct (escape_unit_length y) as [L _].
    apply (f_equal (@length N)) in H. rewrite length_app in H. simpl in H. lia.
  - destruct (escape_unit_length x) as [L _].
    apply (f_equal (@length N)) in H. rewrite length_app in H. simpl in H. lia.
  - apply escape_unit_inj_head in H as [-> H]. f_equal. now apply IH.
Qed.

Lemma escapeHtml_injective_witness :
  lit "a<" ++ lit "b" = lit "a<b".
Proof.
  apply (escapeHtml_injective (lit "a<" ++ lit "b") (lit "a<b")). reflexivity.
Defined.

(** ** The texts of a card *)

(** X5: the description a card shows is never longer than 123 code units: a
    description of at most 120 units is shown as it is, a longer one is cut
    to its first 120 units followed by three dots, and a missing one is
    replaced by the fixed text. *)
Theorem card_description_bounded :
  forall sc,
    (length (card_description sc) <= 123)%nat
    /\ (forall d, description sc = JStr d -> d <> [] ->
          (length d <= 120)%nat -> card_description sc = d)
    /\ (forall d, description sc = JStr d ->
          (120 < length d)%nat ->
          card_description sc = firstn 120 d ++ lit "...")
    /\ (truthy (description sc) = false ->
          card_description sc = lit "No description available").
Proof.
  intros sc. unfold card_description.
  split; [|split; [|split]].
  - destruct (description sc) as [| |[|c d]]; simpl truthy; cbv iota;
      try (vm_compute; lia).
    destruct (Nat.ltb_spec 120 (length (c :: d))); [|lia].
    rewrite length_app, length_firstn. simpl length. lia.
  - intros d -> Hne Hle. destruct d as [|c d]; [congruence|].
    simpl truthy. cbv iota.
    destruct (Nat.ltb_spec 120 (length (c :: d))); [lia | reflexivity].
  - intros d -> Hlt. destruct d as [|c d]; [simpl in Hlt; lia|].
    simpl truthy. cbv iota.
    destruct (Nat.ltb_spec 120 (length (c :: d))); [reflexivity | lia].
  - now intros ->.
Qed.

Lemma card_description_bounded_witness :
  card_description (Examples.item "x" JUndefined)
  = lit "No description available".
Proof.
  apply (card_description_bounded (Examples.item "x" JUndefined)).
  reflexivity.
Defined.

Lemma escapeHtml_truthy (v : jsval) : truthy v = true -> escapeHtml v <> [].
Proof.
  destruct v as [| |[|c s]]; try discriminate. intros _.
  rewrite escapeHtml_str. simpl.
  destruct (escape_unit_length c) as [L _].
  destruct (escape_unit c); [simpl in L; lia | discriminate].
Qed.

Lemma js_or_default_truthy (v d : jsval) :
  truthy d = true -> truthy (js_or v d) = true.
Proof. unfold js_or. destruct (truthy v) eqn:E; congruence. Qed.

(** X6: a card never shows an empty author, title or identifier: the author
    is the user name when the item has a user with a name, else the creator
    when there is one, else the fixed text [Unknown]; and each of the three
    texts written into the card has at least one code unit. *)
Theorem card_texts_never_empty :
  forall sc,
    (forall u, user sc = Some u -> truthy (username u) = true ->
       card_author sc = username u)
    /\ ((forall u, user sc = Some u -> truthy (username u) = false) ->
        truthy (creator sc) = true -> card_author sc = creator sc)
    /\ ((forall u, user sc = Some u -> truthy (username u) = false) ->
        truthy (creator sc) = false -> card_author sc = JStr (lit "Unknown"))
    /\ truthy (card_author sc) = true
    /\ card_author_html sc <> []
    /\ card_title_html sc <> []
    /\ card_id_html sc <> [].
Proof.
  intros sc.
  split.
  { intros u Hu Ht. unfold card_author, hasUser. now rewrite Hu, Ht. }
  assert (N0 : (forall u, user sc = Some u -> truthy (username u) = false) ->
               card_author sc = js_or (creator sc) (JStr (lit "Unknown"))).
  { intros H. unfold card_author, hasUser.
    destruct (user sc) as [u|]; [|reflexivity].
    now rewrite (H u eq_refl). }
  split.
  { intros H Hc. rewrite (N0 H). now apply js_or_truthy. }
  split.
  { intros H Hc. rewrite (N0 H). unfold js_or. now rewrite Hc. }
  assert (A : truthy (card_author sc) = true).
  { unfold card_author, hasUser.
    destruct (user sc) as [u|]; simpl.
    - destruct (truthy (username u)) eqn:E; [exact E|].
      now apply js_or_default_truthy.
    - now apply js_or_default_truthy. }
  split; [exact A|]. split; [|split].
  - now apply escapeHtml_truthy.
  - apply escapeHtml_truthy. now apply js_or_default_truthy.
  - apply escapeHtml_truthy. now apply js_or_default_truthy.
Qed.

Lemma card_texts_never_empty_witness :
  card_author (Examples.item "x" JUndefined) = JStr (lit "someone").
Proof.
  destruct (card_texts_never_empty (Examples.item "x" JUndefined))
    as (_ & H & _).
  apply H; [discriminate | reflexivity].
Defined.

(** ** The code view of a card *)


Section CodeViewFacts.

Context {ops : StringOps}.


(** X8: after an answer with a success status and a text, the code block
    holds the first 15000 code units of the text, the whole text when it is
    not longer, and the button reads [Hide Code]; the [display] of the block
    is not touched. *)
Theorem loaded_code_is_capped :
  forall status code c,
    ok status = true ->
    let c' := click_resume (RawResolved status (Text code)) c in
    codeText c' = firstn (N.to_nat 15000) code
    /\ (length (codeText c') <= N.to_nat 15000)%nat
    /\ ((length code <= N.to_nat 15000)%nat -> codeText c' = code)
    /\ buttonText c' = lit "Hide Code"
    /\ display c' = display c.
Proof.
  intros status code c Hok c'. subst c'. unfold click_resume. rewrite Hok.
  cbn [codeText buttonText display set_codeText set_buttonText].
  split; [reflexivity|]. split; [apply firstn_le_length|].
  split; [|split; reflexivity].
  intros H. now apply firstn_all2.
Qed.

(** X9: the handler does not remember that a request is pending.  When the
    block is hidden again while the code is on its way, a further click
    issues a second request for the same address, and the answer to the
    first one leaves the button reading [Hide Code] over a hidden block. *)
Theorem hide_while_loading :
  forall c r,
    display c = lit "none" ->
    trim (codeText c) = lit "Loading code..." ->
    rawurl c <> [] ->
    let c1 := fst (click c) in
    let c2 := fst (click c1) in
    snd (click c) = Some (rawurl c)
    /\ snd (click c1) = None
    /\ snd (click c2) = Some (rawurl c)
    /\ display (click_resume r c2) = lit "none"
    /\ buttonText (click_resume r c2) = lit "Hide Code".
Proof.
  intros c r Hd Ht Hu c1 c2.
  assert (E1 : click c
               = (set_buttonText (lit "Loading...")
                    (set_buttonText (lit "Hide Code")
                       (set_display (lit "block") c)), Some (rawurl c))).
  { unfold click. rewrite Hd.
    cbn [codeText rawurl set_display set_buttonText].
    rewrite Ht. destruct (rawurl c); [congruence | reflexivity]. }
  assert (E2 : click c1
               = (set_buttonText (lit "Show Code")
                    (set_display (lit "none") c1), None)).
  { subst c1. rewrite E1. reflexivity. }
  assert (E3 : click c2
               = (set_buttonText (lit "Loading...")
                    (set_buttonText (lit "Hide Code")
                       (set_display (lit "block") c2)), Some (rawurl c))).
  { subst c2. rewrite E2. subst c1. rewrite E1. unfold click.
    cbn [fst display codeText rawurl set_display set_buttonText].
    rewrite Ht. destruct (rawurl c); [congruence | reflexivity]. }
  rewrite E1, E2, E3. repeat split.
  - subst c2. rewrite E2. unfold click_resume.
    destruct r as [m|st [code|m]]; [| destruct (ok st) | destruct (ok st)];
      reflexivity.
Qed.

(** After a failed load the code block starts with the two slashes of the
    error text. *)
Lemma failed_text_starts_with_slash r c :
  raw_failed r = true ->
  exists s, codeText (click_resume r c) = 47 :: s.
Proof.
  unfold raw_failed, click_resume.
  destruct r as [m|st [code|m]]; intros H.
  - eexists. reflexivity.
  - destruct (ok st); [discriminate H|]. eexists. reflexivity.
  - destruct (ok st); eexists; reflexivity.
Qed.

(** X10: a failed load is not tried again.  Provided [trim] keeps a leading
    slash, once the answer was a rejection, a failure status or an
    unreadable body, clicks on the card only toggle the block: as long as
    the code block keeps that text, no click requests anything. *)
Theorem failed_load_is_not_retried :
  (forall s, exists s', trim (47 :: s) = 47 :: s') ->
  forall r c c',
    raw_failed r = true ->
    codeText c' = codeText (click_resume r c) ->
    snd (click c') = None.
Proof.
  intros Htrim r c c' Hf Hc.
  destruct (failed_text_starts_with_slash r c Hf) as [s Hs].
  rewrite Hs in Hc.
  unfold click. destruct (negb (str_eqb (display c') (lit "none")));
    [reflexivity|].
  cbn [codeText set_display set_buttonText]. rewrite Hc.
  destruct (Htrim s) as [s' ->]. reflexivity.
Qed.

End CodeViewFacts.


Lemma loaded_code_is_capped_witness :
  codeText (click_resume (RawResolved 200 (Text (lit "print(1)")))
              (fresh_card (lit "https://x/raw")))
  = lit "print(1)".
Proof.
  destruct (loaded_code_is_capped 200 (lit "print(1)")
              (fresh_card (lit "https://x/raw")) eq_refl) as (_ & _ & H & _).
  apply H. apply Nat.leb_le. reflexivity.
Defined.

Lemma hide_while_loading_witness :
  let c := set_display (lit "none") (fresh_card (lit "https://x/raw")) in
  let c2 := fst (click (ops := Examples.ascii_ops)
                   (fst (click (ops := Examples.ascii_ops) c))) in
  display (click_resume (RawRejected (lit "offline")) c2) = lit "none"
  /\ buttonText (click_resume (RawRejected (lit "offline")) c2)
     = lit "Hide Code".
Proof.
  intros c c2.
  destruct (hide_while_loading (ops := Examples.ascii_ops) c
              (RawRejected (lit "offline")) eq_refl eq_refl)
    as (_ & _ & _ & Hd & Hb); [discriminate|].
  split; [exact Hd | exact Hb].
Defined.

Lemma drop_spaces_keeps_last_slash (l : jsstring) :
  exists l', Examples.drop_spaces (l ++ [47]) = l' ++ [47].
Proof.
  induction l as [|c l [l' IH]]; simpl.
  - now exists [].
  - destruct (Examples.is_space c); [now exists l'|].
    now exists (c :: l).
Qed.

Lemma ascii_trim_keeps_slash (s : jsstring) :
  exists s', trim (StringOps := Examples.ascii_ops) (47 :: s) = 47 :: s'.
Proof.
  simpl. destruct (drop_spaces_keeps_last_slash (rev s)) as [l' ->].
  exists (rev l'). now rewrite rev_app_distr.
Qed.

Lemma failed_load_is_not_retried_witness :
  snd (click (ops := Examples.ascii_ops)
         (set_display (lit "none")
            (click_resume (RawResolved 404 (Text (lit "not found")))
               (fresh_card (lit "https://x/raw")))))
  = None.
Proof.
  apply (failed_load_is_not_retried (ops := Examples.ascii_ops)
           ascii_trim_keeps_slash
           (RawResolved 404 (Text (lit "not found")))
           (fresh_card (lit "https://x/raw"))); reflexivity.
Defined.

(** ** What the operations leave alone *)

Section Frames.

Context {ops : StringOps}.

Lemma final_poll_cases net s :
  final net pollForNewScripts s = s
  \/ final net pollForNewScripts s = poll_apply (received (net (page_url 1))) s.
Proof.
  unfold final. rewrite run_pollForNewScripts.
  destruct (autoRefresh s); [now right | now left].
Qed.

Lemma filter_view_keeps s :
  currentPage (filter_view s) = currentPage s
  /\ maxPages (filter_view s) = maxPages s
  /\ autoRefresh (filter_view s) = autoRefresh s
  /\ searchQuery (filter_view s) = searchQuery s.
Proof. unfold filter_view. destruct (trim (searchQuery s)); now simpl. Qed.

Lemma poll_apply_keeps data s :
  currentPage (poll_apply data s) = currentPage s
  /\ maxPages (poll_apply data s) = maxPages s
  /\ autoRefresh (poll_apply data s) = autoRefresh s
  /\ searchQuery (poll_apply data s) = searchQuery s.
Proof.
  destruct (scripts data) as [|first rest] eqn:Hd.
  { unfold poll_apply. rewrite Hd. now repeat split. }
  destruct (truthy (newestTimestamp s)) eqn:Hw.
  - destruct (poll_apply_set _ _ _ _ Hd Hw) as [[_ ->]|(_ & _ & ->)];
      [now repeat split|].
    set (new := newer_prefix (newestTimestamp s) (first :: rest)).
    set (x := set_newestTimestamp (timestamp_of first)
                (set_allScripts (rev new ++ allScripts s) s)).
    destruct (merged_view first new s) as (_ & _ & [-> | ->]); fold x.
    + unfold showNewCount. destruct (0 <? length new)%nat;
        apply (filter_view_keeps x).
    + apply (filter_view_keeps x).
  - rewrite (poll_apply_unset _ _ _ _ Hd Hw). now repeat split.
Qed.

Lemma loadPage_apply_keeps page data s :
  autoRefresh (loadPage_apply page data s) = autoRefresh s
  /\ searchQuery (loadPage_apply page data s) = searchQuery s
  /\ newCountBadge (loadPage_apply page data s) = newCountBadge s.
Proof.
  destruct (filter_view_keeps (set_allScripts (scripts data) s))
    as (_ & _ & Ha & Hq).
  destruct (filter_view_frame (set_allScripts (scripts data) s))
    as (_ & _ & Hb).
  destruct (loadPage_apply_cases page data s) as [[_ ->]|(e & _ & ->)].
  - destruct (loadPage_tail_frame page data
                (filter_view (set_allScripts (scripts data) s)))
      as (_ & _ & -> & -> & ->).
    now repeat split.
  - now repeat split.
Qed.

Lemma final_poll_keeps net s :
  currentPage (final net pollForNewScripts s) = currentPage s
  /\ maxPages (final net pollForNewScripts s) = maxPages s
  /\ autoRefresh (final net pollForNewScripts s) = autoRefresh s
  /\ searchQuery (final net pollForNewScripts s) = searchQuery s.
Proof.
  destruct (final_poll_cases net s) as [-> | ->]; [now repeat split|].
  apply poll_apply_keeps.
Qed.

(** X11: a detector cycle never changes the page number, the number of
    pages, the auto-refresh flag or the search text, whatever the network
    answers. *)
Theorem poll_leaves_navigation_alone :
  forall net s,
    currentPage (final net pollForNewScripts s) = currentPage s
    /\ maxPages (final net pollForNewScripts s) = maxPages s
    /\ autoRefresh (final net pollForNewScripts s) = autoRefresh s
    /\ searchQuery (final net pollForNewScripts s) = searchQuery s.
Proof.
  intros net s. apply final_poll_keeps.
Qed.

Lemma final_loadPage_keeps net page s :
  autoRefresh (final net (loadPage page) s) = autoRefresh s
  /\ searchQuery (final net (loadPage page) s) = searchQuery s
  /\ newCountBadge (final net (loadPage page) s) = newCountBadge s.
Proof. rewrite final_loadPage. apply loadPage_apply_keeps. Qed.

(** X12: a page load never changes the auto-refresh flag or the search
    text, and it leaves the new-count badge as it finds it: a badge that
    counts items of the page before stays up over the page just loaded. *)
Theorem loadPage_leaves_badge_alone :
  forall net page s,
    autoRefresh (final net (loadPage page) s) = autoRefresh s
    /\ searchQuery (final net (loadPage page) s) = searchQuery s
    /\ newCountBadge (final net (loadPage page) s) = newCountBadge s.
Proof.
  intros net page s. rewrite final_loadPage. apply loadPage_apply_keeps.
Qed.


End Frames.


(** ** Page loads and page buttons *)

Lemma js_or_idem (a b : jsval) : js_or a (js_or a b) = js_or a b.
Proof. unfold js_or. now destruct (truthy a). Qed.

(** Two states with the same eight variables are the same state. *)
Lemma state_ext (s s' : state) :
  currentPage s = currentPage s' ->
  maxPages s = maxPages s' ->
  autoRefresh s = autoRefresh s' ->
  newestTimestamp s = newestTimestamp s' ->
  allScripts s = allScripts s' ->
  filteredScripts s = filteredScripts s' ->
  searchQuery s = searchQuery s' ->
  newCountBadge s = newCountBadge s' ->
  s = s'.
Proof. destruct s, s'; simpl; intros; subst; reflexivity. Qed.

Section Navigation.

Context {ops : StringOps}.

Lemma filter_view_view s s' :
  searchQuery s = searchQuery s' -> allScripts s = allScripts s' ->
  filteredScripts (filter_view s) = filteredScripts (filter_view s').
Proof.
  intros Hq Ha. unfold filter_view. rewrite Hq.
  destruct (trim (searchQuery s')); simpl; now rewrite Ha.
Qed.

(** A view made of cards that render is rendered without an exception. *)
Lemma render_cards_incl l l' :
  renderable l -> incl l' l -> render_cards l' = Normal tt.
Proof.
  intros H Hi. induction l' as [|sc l' IH]; simpl; [reflexivity|].
  rewrite (H sc (Hi sc (or_introl eq_refl))). apply IH.
  intros x Hx. apply Hi. now right.
Qed.

Lemma filter_view_incl s : incl (filteredScripts (filter_view s)) (allScripts s).
Proof.
  unfold filter_view. destruct (trim (searchQuery s)); simpl.
  - apply incl_refl.
  - intros x Hx. now apply filter_In in Hx.
Qed.

Lemma renderable_view s :
  renderable (allScripts s) ->
  renderFilteredScripts (filter_view s) = Normal tt.
Proof.
  intros H. unfold renderFilteredScripts.
  apply (render_cards_incl (allScripts s)); [exact H | apply filter_view_incl].
Qed.

Lemma loadPage_apply_renders page data s :
  renderable (scripts data) ->
  renderFilteredScripts (loadPage_apply page data s) = Normal tt.
Proof.
  intros H. unfold renderFilteredScripts. rewrite loadPage_apply_view.
  now apply (renderable_view (set_allScripts (scripts data) s)).
Qed.


(** The page number and the number of pages after the statements of
    [loadPage]. *)
Lemma loadPage_apply_page page data s :
  currentPage (loadPage_apply page data s)
  = match renderFilteredScripts (loadPage_apply page data s) with
    | Normal _ => num_or (match info data with
                          | Some i => info_currentPage i
                          | None => None
                          end) page
    | Throw _ => currentPage s
    end
  /\ maxPages (loadPage_apply page data s)
     = match renderFilteredScripts (loadPage_apply page data s) with
       | Normal _ => num_or_null (match info data with
                                  | Some i => info_maxPages i
                                  | None => None
                                  end)
       | Throw _ => maxPages s
       end.
Proof.
  unfold renderFilteredScripts. rewrite loadPage_apply_view.
  fold (renderFilteredScripts
          (filter_view (set_allScripts (scripts data) s))).
  destruct (filter_view_keeps (set_allScripts (scripts data) s))
    as (Hc & Hm & _).
  destruct (loadPage_apply_cases page data s) as [[-> ->]|(e & -> & ->)].
  - unfold loadPage_tail. destruct (scripts data); now split.
  - now split.
Qed.

Lemma loadPage_apply_idem page data s :
  loadPage_apply page data (loadPage_apply page data s)
  = loadPage_apply page data s.
Proof.
  assert (Hv : filteredScripts
                 (loadPage_apply page data (loadPage_apply page data s))
               = filteredScripts (loadPage_apply page data s)).
  { rewrite !loadPage_apply_view.
    apply filter_view_view; [|reflexivity].
    cbn [searchQuery set_allScripts].
    apply (loadPage_apply_keeps page data s). }
  assert (Hr : renderFilteredScripts
                 (loadPage_apply page data (loadPage_apply page data s))
               = renderFilteredScripts (loadPage_apply page data s)).
  { unfold renderFilteredScripts. now rewrite Hv. }
  pose proof (proj1 (loadPage_apply_page page data s)) as Ec.
  pose proof (proj2 (loadPage_apply_page page data s)) as Em.
  pose proof (loadPage_apply_watermark page data s) as Ew.
  apply state_ext.
  - rewrite (proj1 (loadPage_apply_page page data (loadPage_apply page data s))).
    rewrite Hr.
    destruct (renderFilteredScripts (loadPage_apply page data s));
      [now rewrite Ec | reflexivity].
  - rewrite (proj2 (loadPage_apply_page page data (loadPage_apply page data s))).
    rewrite Hr.
    destruct (renderFilteredScripts (loadPage_apply page data s));
      [now rewrite Em | reflexivity].
  - now rewrite !(proj1 (loadPage_apply_keeps _ _ _)).
  - rewrite (loadPage_apply_watermark page data (loadPage_apply page data s)).
    rewrite Hr.
    destruct (renderFilteredScripts (loadPage_apply page data s));
      [|reflexivity].
    destruct (scripts data); [reflexivity|].
    rewrite Ew. apply js_or_idem.
  - now rewrite !loadPage_apply_collection.
  - exact Hv.
  - now rewrite !(proj1 (proj2 (loadPage_apply_keeps _ _ _))).
  - now rewrite !(proj2 (proj2 (loadPage_apply_keeps _ _ _))).
Qed.

(** X14: loading the same page twice from the same answer gives the state
    of the first load: a repeated load changes nothing more. *)
Theorem loadPage_twice_same_answer :
  forall net page s,
    final net (loadPage page) (final net (loadPage page) s)
    = final net (loadPage page) s.
Proof.
  intros net page s. rewrite !final_loadPage. apply loadPage_apply_idem.
Qed.

Lemma loadPage_apply_failed page s :
  currentPage (loadPage_apply page empty_result s) = page
  /\ maxPages (loadPage_apply page empty_result s) = None
  /\ allScripts (loadPage_apply page empty_result s) = [].
Proof.
  assert (Hr : renderFilteredScripts (loadPage_apply page empty_result s)
               = Normal tt).
  { apply loadPage_apply_renders. now intros sc []. }
  destruct (loadPage_apply_page page empty_result s) as [Hc Hm].
  rewrite Hr in Hc, Hm.
  split; [exact Hc|]. split; [exact Hm|].
  apply loadPage_apply_collection.
Qed.

(** Below 2^53 a double holds every natural. *)
Lemma to_double_exact m : m < 9007199254740992 -> to_double m = m.
Proof.
  intros H. unfold to_double.
  destruct (N.ltb_spec m 9007199254740992); [reflexivity | lia].
Qed.

(** X15: a failed load still moves the page number.  When the Next handler
    is allowed to act and the request fails, the page number becomes the
    double nearest to the page number plus one, which is the page number
    plus one as long as this stays below 2^53; the number of pages is
    forgotten and the collection is emptied, so the handler is allowed to
    act again: Next never locks while requests fail. *)
Theorem next_page_on_failure :
  forall net a,
    nextAllowed (vars a) = true ->
    failed (net (page_url (to_double (currentPage (vars a) + 1)))) ->
    let a' := handle (NextPage net) a in
    currentPage (vars a') = to_double (currentPage (vars a) + 1)
    /\ (currentPage (vars a) + 1 < 9007199254740992 ->
        currentPage (vars a') = currentPage (vars a) + 1)
    /\ maxPages (vars a') = None
    /\ allScripts (vars a') = []
    /\ nextAllowed (vars a') = true
    /\ nextDisabled (vars a') = false.
Proof.
  intros net a Hok Hf a'. subst a'. unfold handle. rewrite Hok.
  cbn [vars]. rewrite final_loadPage.
  cbn [currentPage set_currentPage].
  rewrite (failed_received _ Hf).
  destruct (loadPage_apply_failed (to_double (currentPage (vars a) + 1))
              (set_currentPage (to_double (currentPage (vars a) + 1)) (vars a)))
    as (Hp & Hm & Hc).
  unfold nextAllowed, nextDisabled. rewrite Hp, Hm, Hc.
  split; [reflexivity|]. split; [apply to_double_exact|]. repeat split.
Qed.

(** X16: the guards of the two page handlers are the negations of the
    [disabled] flags [updatePageStatus] computes from the same state: a
    handler acts exactly when its button is enabled. *)
Theorem page_guards_match_buttons :
  forall s,
    prevAllowed s = negb (prevDisabled s)
    /\ nextAllowed s = negb (nextDisabled s).
Proof.
  intros s. unfold prevAllowed, prevDisabled, nextAllowed, nextDisabled.
  split.
  - destruct (N.ltb_spec 1 (currentPage s)), (N.leb_spec (currentPage s) 1);
      try reflexivity; lia.
  - destruct (maxPages s) as [[|m]|]; try reflexivity.
    destruct (N.ltb_spec (currentPage s) (N.pos m)),
      (N.leb_spec (N.pos m) (currentPage s)); try reflexivity; lia.
Qed.


End Navigation.

(** ** Sequences of events *)

Section Events.

Context {ops : StringOps}.

Lemma run_events_snoc evs e a :
  run_events (evs ++ [e]) a = handle e (run_events evs a).
Proof. unfold run_events. now rewrite fold_left_app. Qed.

(** A property of the start that every handler keeps, as long as the events
    satisfy [Q], holds after any such sequence of events. *)
Lemma run_events_invariant (Q : event -> Prop) (P : window -> Prop) :
  P start ->
  (forall e a, Q e -> P a -> P (handle e a)) ->
  forall evs, Forall Q evs -> P (run_events evs start).
Proof.
  intros H0 Hstep evs. induction evs as [|e evs IH] using rev_ind; intros HQ.
  - exact H0.
  - rewrite run_events_snoc. apply Forall_app in HQ as [HQ He].
    inversion He; subst. apply Hstep; auto.
Qed.

Lemma Forall_True (evs : list event) : Forall (fun _ => True) evs.
Proof. induction evs; constructor; auto. Qed.

(** The auto-refresh flag after an event: only the toggle changes it. *)
Lemma handle_autoRefresh e a :
  autoRefresh (vars (handle e a))
  = match e with
    | ToggleAutorefresh => negb (autoRefresh (vars a))
    | _ => autoRefresh (vars a)
    end.
Proof.
  destruct e; cbn [handle vars]; try reflexivity.
  - apply final_loadPage_keeps.
  - apply (filter_view_keeps (set_searchQuery value (vars a))).
  - apply (filter_view_keeps (set_searchQuery [] (vars a))).
  - apply final_loadPage_keeps.
  - destruct (prevAllowed (vars a)); [|reflexivity]. cbn [vars].
    now rewrite (proj1 (final_loadPage_keeps _ _ _)).
  - destruct (nextAllowed (vars a)); [|reflexivity]. cbn [vars].
    now rewrite (proj1 (final_loadPage_keeps _ _ _)).
  - apply final_poll_keeps.
Qed.

(** The timers after an event: only three handlers touch them. *)
Lemma handle_clock e a :
  clock (handle e a)
  = match e with
    | Init _ => startPolling (autoRefresh (vars a)) (clock a)
    | ToggleAutorefresh =>
        if autoRefresh (vars a)
        then clearInterval (pollTimer (clock a)) (clock a)
        else startPolling true (clock a)
    | IntervalChange seconds =>
        startPolling (autoRefresh (vars a))
          (set_pollIntervalSeconds seconds (clock a))
    | _ => clock a
    end.
Proof.
  destruct e; cbn [handle clock vars]; try reflexivity.
  - now rewrite (proj1 (final_loadPage_keeps _ _ _)).
  - cbn [autoRefresh set_autoRefresh]. now destruct (autoRefresh (vars a)).
  - now destruct (prevAllowed (vars a)).
  - now destruct (nextAllowed (vars a)).
Qed.

End Events.

(** ** Timers *)

Lemma one_timer_cleared auto t :
  one_timer auto t ->
  intervals (clearInterval (pollTimer t) t) = []
  /\ next_id (clearInterval (pollTimer t) t) = next_id t
  /\ pollIntervalSeconds (clearInterval (pollTimer t) t) = pollIntervalSeconds t.
Proof.
  intros (Hn & [Hi | (id & d & Hid & Hp & Hi)] & _).
  - destruct (pollTimer t); simpl; rewrite ?Hi; now repeat split.
  - rewrite Hp. simpl. rewrite Hi. simpl. rewrite Nat.eqb_refl. now repeat split.
Qed.

Lemma startPolling_one_timer auto0 auto t :
  one_timer auto0 t ->
  one_timer auto (startPolling auto t)
  /\ pollIntervalSeconds (startPolling auto t) = pollIntervalSeconds t
  /\ (auto = true ->
      exists id, pollTimer (startPolling auto t) = Some id
                 /\ intervals (startPolling auto t)
                    = [(id, pollIntervalSeconds t * 1000)]).
Proof.
  intros H.
  destruct (one_timer_cleared _ _ H) as (Hc & Hcn & Hcp).
  destruct H as (Hn & Hi & _).
  set (t1 := match pollTimer t with
             | Some (S _ as id) => clearInterval (Some id) t
             | _ => t
             end).
  assert (H1 : intervals t1 = [] /\ next_id t1 = next_id t
               /\ pollIntervalSeconds t1 = pollIntervalSeconds t).
  { subst t1. destruct (pollTimer t) as [[|k]|] eqn:Hp.
    - destruct Hi as [Hi | (id & d & Hid & Hp' & _)]; [now repeat split|].
      injection Hp' as <-. lia.
    - exact (conj Hc (conj Hcn Hcp)).
    - destruct Hi as [Hi | (id & d & Hid & Hp' & _)]; [now repeat split|].
      discriminate. }
  destruct H1 as (Hi1 & Hn1 & Hp1).
  unfold startPolling. fold t1.
  destruct auto; cbn [negb].
  - unfold setInterval. cbn [set_pollTimer].
    rewrite Hi1, Hn1, Hp1. unfold one_timer. simpl.
    split; [|split; [reflexivity|]].
    + split; [lia|]. split; [|discriminate].
      right. exists (next_id t), (pollIntervalSeconds t * 1000).
      repeat split. exact Hn.
    + intros _. now exists (next_id t).
  - split; [|split; [exact Hp1 | discriminate]].
    unfold one_timer. rewrite Hi1, Hn1. split; [exact Hn|]. split; auto.
Qed.

Section Scheduling.

Context {ops : StringOps}.

(** The timers are in order after every event, and a running timer has the
    delay of the current interval. *)
Lemma timers_invariant evs :
  let a := run_events evs start in
  one_timer (autoRefresh (vars a)) (clock a)
  /\ (forall id d, In (id, d) (intervals (clock a)) ->
        d = pollIntervalSeconds (clock a) * 1000).
Proof.
  apply (run_events_invariant (fun _ => True)
           (fun a => one_timer (autoRefresh (vars a)) (clock a)
                     /\ (forall id d, In (id, d) (intervals (clock a)) ->
                           d = pollIntervalSeconds (clock a) * 1000)));
    [| |apply Forall_True].
  - split; [|now intros id d []].
    unfold one_timer. simpl. split; [lia|]. split; auto.
  - intros e a _ [H Hd].
    rewrite handle_autoRefresh, handle_clock.
    destruct e; try (split; [exact H | exact Hd]).
    + destruct (startPolling_one_timer _ (autoRefresh (vars a)) _ H)
        as (H1 & Hp & Hs).
      split; [exact H1|]. intros id d Hin.
      destruct (autoRefresh (vars a)).
      * destruct (Hs eq_refl) as (id' & _ & Hi). rewrite Hi in Hin.
        destruct Hin as [E|[]]. injection E as _ <-. now rewrite Hp.
      * destruct H1 as (_ & _ & H0). now rewrite (H0 eq_refl) in Hin.
    + destruct (autoRefresh (vars a)); cbn [negb].
      * destruct (one_timer_cleared _ _ H) as (Hc & Hn & _).
        split; [|now rewrite Hc].
        unfold one_timer. rewrite Hc, Hn. split; [apply H|]. split; auto.
      * destruct (startPolling_one_timer _ true _ H) as (H1 & Hp & Hs).
        split; [exact H1|]. intros id d Hin.
        destruct (Hs eq_refl) as (id' & _ & Hi). rewrite Hi in Hin.
        destruct Hin as [E|[]]. injection E as _ <-. now rewrite Hp.
    + assert (H' : one_timer (autoRefresh (vars a))
                     (set_pollIntervalSeconds seconds (clock a))) by exact H.
      destruct (startPolling_one_timer _ (autoRefresh (vars a)) _ H')
        as (H1 & Hp & Hs).
      split; [exact H1|]. intros id d Hin.
      destruct (autoRefresh (vars a)).
      * destruct (Hs eq_refl) as (id' & _ & Hi). rewrite Hi in Hin.
        destruct Hin as [E|[]]. injection E as _ <-. now rewrite Hp.
      * destruct H1 as (_ & _ & H0). now rewrite (H0 eq_refl) in Hin.
Qed.

(** X18: whatever the user and the timers do, in whatever order, at most
    one interval timer runs; it is the one [pollTimer] names and its delay
    is the current interval in milliseconds; and while auto-refresh is off
    no interval timer runs. *)
Theorem at_most_one_poll_timer :
  forall evs,
    let a := run_events evs start in
    (length (intervals (clock a)) <= 1)%nat
    /\ (forall id d, In (id, d) (intervals (clock a)) ->
          pollTimer (clock a) = Some id
          /\ d = pollIntervalSeconds (clock a) * 1000)
    /\ (autoRefresh (vars a) = false -> intervals (clock a) = []).
Proof.
  intros evs a.
  destruct (timers_invariant evs) as [(_ & Hi & Hoff) Hd]. fold a in Hi, Hoff, Hd.
  split; [|split; [|exact Hoff]].
  - destruct Hi as [-> | (id & d & _ & _ & ->)]; simpl; lia.
  - intros id d Hin. split; [|now apply (Hd id)].
    destruct Hi as [Hi | (id' & d' & _ & Hp & Hi)]; rewrite Hi in Hin.
    + destruct Hin.
    + destruct Hin as [E|[]]. injection E as <- _. exact Hp.
Qed.

(** X19: after the initial load, a toggle or a change of interval, polling
    is scheduled exactly when auto-refresh is on: with the flag on, one
    interval timer runs with the current interval as its delay; with the
    flag off, none. *)
Theorem polling_follows_autoRefresh :
  forall evs e,
    reschedules e = true ->
    let a := handle e (run_events evs start) in
    (autoRefresh (vars a) = true ->
     exists id, pollTimer (clock a) = Some id
                /\ intervals (clock a)
                   = [(id, pollIntervalSeconds (clock a) * 1000)])
    /\ (autoRefresh (vars a) = false -> intervals (clock a) = []).
Proof.
  intros evs e He a.
  destruct (timers_invariant (evs ++ [e])) as [(_ & _ & Hoff) _].
  rewrite run_events_snoc in Hoff. fold a in Hoff.
  split; [|exact Hoff].
  destruct (timers_invariant evs) as [H _].
  subst a. rewrite handle_autoRefresh, handle_clock.
  destruct e; try discriminate.
  - intros Hon. rewrite Hon.
    destruct (startPolling_one_timer _ true _ H) as (_ & Hp & Hs).
    destruct (Hs eq_refl) as (id & E1 & E2). exists id. now rewrite Hp.
  - destruct (autoRefresh (vars (run_events evs start))); [discriminate|].
    intros _.
    destruct (startPolling_one_timer _ true _ H) as (_ & Hp & Hs).
    destruct (Hs eq_refl) as (id & E1 & E2). exists id. now rewrite Hp.
  - intros Hon. rewrite Hon.
    assert (H' : one_timer (autoRefresh (vars (run_events evs start)))
                   (set_pollIntervalSeconds seconds
                      (clock (run_events evs start)))) by exact H.
    destruct (startPolling_one_timer _ true _ H') as (_ & Hp & Hs).
    destruct (Hs eq_refl) as (id & E1 & E2). exists id. now rewrite Hp.
Qed.

End Scheduling.

(** ** Invariants of the page *)

Section Invariants.

Context {ops : StringOps}.

(** The view of a state that has just been filtered. *)
Lemma view_of s s' :
  filteredScripts s' = filteredScripts (filter_view s) ->
  searchQuery s' = searchQuery s ->
  allScripts s' = allScripts s ->
  filteredScripts s' = filteredScripts (filter_view s').
Proof.
  intros Hf Hq Ha. rewrite Hf. symmetry. now apply filter_view_view.
Qed.

Lemma view_same s s' :
  filteredScripts s = filteredScripts (filter_view s) ->
  filteredScripts s' = filteredScripts s ->
  searchQuery s' = searchQuery s ->
  allScripts s' = allScripts s ->
  filteredScripts s' = filteredScripts (filter_view s').
Proof.
  intros H Hf Hq Ha. rewrite Hf, H. symmetry. now apply filter_view_view.
Qed.

Lemma view_loadPage net page s :
  let s' := final net (loadPage page) s in
  filteredScripts s' = filteredScripts (filter_view s').
Proof.
  intros s'. subst s'. rewrite final_loadPage.
  apply (view_of (set_allScripts (scripts (received (net (page_url page)))) s)).
  - apply loadPage_apply_view.
  - apply (loadPage_apply_keeps page _ s).
  - apply loadPage_apply_collection.
Qed.

Lemma view_poll_apply data s :
  filteredScripts s = filteredScripts (filter_view s) ->
  filteredScripts (poll_apply data s)
  = filteredScripts (filter_view (poll_apply data s)).
Proof.
  intros H.
  destruct (scripts data) as [|first rest] eqn:Hd.
  - unfold poll_apply. now rewrite Hd.
  - destruct (truthy (newestTimestamp s)) eqn:Hw.
    + destruct (poll_apply_set _ _ _ _ Hd Hw) as [[_ ->]|(_ & _ & ->)];
        [exact H|].
      set (new := newer_prefix (newestTimestamp s) (first :: rest)).
      set (x := set_newestTimestamp (timestamp_of first)
                  (set_allScripts (rev new ++ allScripts s) s)).
      apply (view_of x).
      * exact (proj1 (merged_view first new s)).
      * exact (proj1 (proj2 (merged_view first new s))).
      * exact (proj1 (merged_frame first new s)).
    + rewrite (poll_apply_unset _ _ _ _ Hd Hw).
      now apply (view_same s).
Qed.

Lemma view_handle e a :
  filteredScripts (vars a) = filteredScripts (filter_view (vars a)) ->
  filteredScripts (vars (handle e a))
  = filteredScripts (filter_view (vars (handle e a))).
Proof.
  intros H. destruct e; cbn [handle vars].
  - apply view_loadPage.
  - apply (view_of (set_searchQuery value (vars a))); try reflexivity;
      apply filter_view_keeps || apply filter_view_frame.
  - apply (view_of (set_searchQuery [] (vars a))); try reflexivity;
      apply filter_view_keeps || apply filter_view_frame.
  - apply view_loadPage.
  - now apply (view_same (vars a)).
  - exact H.
  - destruct (prevAllowed (vars a)); [apply view_loadPage | exact H].
  - destruct (nextAllowed (vars a)); [apply view_loadPage | exact H].
  - now apply (view_same (vars a)).
  - destruct (final_poll_cases net (vars a)) as [-> | ->];
      [exact H | now apply view_poll_apply].
  - now apply (view_same (vars a)).
Qed.

(** X20: the view never goes stale.  After any sequence of events the
    filtered view is what the filter gives on the collection and the search
    text of that moment; it holds only items of the collection, and all of
    them when the trimmed search text is empty. *)
Theorem view_follows_collection :
  forall evs,
    let s := vars (run_events evs start) in
    filteredScripts s = filteredScripts (snd (applySearchFilter s))
    /\ incl (filteredScripts s) (allScripts s)
    /\ (trim (searchQuery s) = [] -> filteredScripts s = allScripts s).
Proof.
  intros evs s.
  assert (H : filteredScripts s = filteredScripts (filter_view s)).
  { subst s.
    apply (run_events_invariant (fun _ => True)
             (fun a => filteredScripts (vars a)
                       = filteredScripts (filter_view (vars a))));
      [| |apply Forall_True].
    - unfold filter_view. simpl. now destruct (trim []).
    - intros e a _. apply view_handle. }
  split; [exact H|]. rewrite H. unfold filter_view.
  destruct (trim (searchQuery s)); simpl.
  - split; [apply incl_refl | reflexivity].
  - split; [|discriminate].
    intros x Hx. now apply filter_In in Hx.
Qed.

Lemma num_or_positive n d : 1 <= d -> 1 <= num_or n d.
Proof. destruct n as [[|p]|]; simpl; lia. Qed.

Lemma num_or_null_not_zero n : num_or_null n <> Some 0.
Proof. destruct n as [[|p]|]; simpl; congruence. Qed.

Lemma page_loadPage net page s :
  1 <= page ->
  1 <= currentPage s ->
  maxPages s <> Some 0 ->
  1 <= currentPage (final net (loadPage page) s)
  /\ maxPages (final net (loadPage page) s) <> Some 0.
Proof.
  intros Hp Hc Hm. rewrite final_loadPage.
  destruct (loadPage_apply_page page (received (net (page_url page))) s)
    as (-> & ->).
  destruct (renderFilteredScripts _); [|now split].
  split; [now apply num_or_positive | apply num_or_null_not_zero].
Qed.

(** The double nearest to a positive natural is positive. *)
Lemma to_double_positive m : 1 <= m -> 1 <= to_double m.
Proof.
  intros H. unfold to_double.
  destruct (N.ltb_spec m 9007199254740992); [exact H|].
  set (sh := N.log2 m - 52).
  assert (Hpow : 0 < 2 ^ sh) by (apply N.neq_0_lt_0, N.pow_nonzero; lia).
  assert (Hq : 1 <= m / 2 ^ sh).
  { apply N.div_le_lower_bound; [lia|]. rewrite N.mul_1_r.
    transitivity (2 ^ N.log2 m).
    - apply N.pow_le_mono_r; [lia|]. unfold sh. lia.
    - apply N.log2_spec. lia. }
  destruct (m mod 2 ^ sh <? 2 ^ (sh - 1));
    [|destruct (2 ^ (sh - 1) <? m mod 2 ^ sh);
      [|destruct (N.even (m / 2 ^ sh))]]; nia.
Qed.

(** X21: the page number never drops below 1 and the number of pages is
    never 0, after any sequence of events; the Previous handler in
    particular never leads below page 1. *)
Theorem page_number_stays_positive :
  forall evs,
    let s := vars (run_events evs start) in
    1 <= currentPage s /\ maxPages s <> Some 0.
Proof.
  intros evs.
  apply (run_events_invariant (fun _ => True)
           (fun a => 1 <= currentPage (vars a) /\ maxPages (vars a) <> Some 0));
    [| |apply Forall_True].
  - simpl. split; [lia | discriminate].
  - intros e a _ [Hc Hm]. destruct e; cbn [handle vars snd applySearchFilter];
      try (split; [exact Hc | exact Hm]).
    + apply page_loadPage; [lia | exact Hc | exact Hm].
    + destruct (filter_view_keeps (set_searchQuery value (vars a)))
        as (-> & -> & _). now split.
    + destruct (filter_view_keeps (set_searchQuery [] (vars a)))
        as (-> & -> & _). now split.
    + now apply page_loadPage.
    + unfold prevAllowed.
      destruct (N.ltb_spec 1 (currentPage (vars a))); [|now split].
      cbn [vars]. cbn [currentPage set_currentPage].
      assert (1 <= to_double (currentPage (vars a) - 1))
        by (apply to_double_positive; lia).
      now apply page_loadPage.
    + destruct (nextAllowed (vars a)); [|now split].
      cbn [vars]. cbn [currentPage set_currentPage].
      assert (1 <= to_double (currentPage (vars a) + 1))
        by (apply to_double_positive; lia).
      now apply page_loadPage.
    + destruct (final_poll_keeps net (vars a)) as (-> & -> & _).
      now split.
Qed.

End Invariants.

(** ** The watermark bounds the collection *)

Section WatermarkBound.

Context {ops : StringOps}.







End WatermarkBound.

(** ** The fetcher on a success *)

(** X23: whatever the answer, [fetchScripts] issues one request, completes
    without throwing and leaves the state alone; on a success status with an
    item list it returns the list and the metadata as they were sent, so an
    empty list comes back with the metadata of the server, not with the
    empty object of the failure path. *)
Theorem fetchScripts_returns_payload :
  forall net page s,
    (exists data,
       run net (fetchScripts page) s = (Normal data, s, [page_url page]))
    /\ (forall status l i,
          net (page_url page) = Resolved status (Some (Object (Some l) i)) ->
          ok status = true ->
          run net (fetchScripts page) s
          = (Normal {| scripts := l; info := i |}, s, [page_url page])).
Proof.
  intros net page s. split.
  - exists (received (net (page_url page))). apply run_fetchScripts.
  - intros status l i Hr Hok. rewrite run_fetchScripts.
    unfold received, fetch_completion, fetch_try. now rewrite Hr, Hok.
Qed.

(** ** Runs on concrete pages *)

Lemma fetchScripts_returns_payload_witness :
  run (Examples.serve [Examples.i3]) (fetchScripts 1) initial
  = (Normal {| scripts := [Examples.i3]; info := None |}, initial, [page_url 1]).
Proof.
  apply (fetchScripts_returns_payload (Examples.serve [Examples.i3]) 1 initial)
    with (status := 200); reflexivity.
Defined.

Lemma next_page_on_failure_witness :
  let a := handle (ops := Examples.ascii_ops) (NextPage Examples.unreachable)
             start in
  currentPage (vars a) = 2 /\ allScripts (vars a) = []
  /\ nextAllowed (vars a) = true.
Proof.
  intros a.
  destruct (next_page_on_failure (ops := Examples.ascii_ops)
              Examples.unreachable start eq_refl failed_transport)
    as (_ & Hp & _ & Hc & Hn & _).
  split; [apply Hp; reflexivity|]. split; [exact Hc | exact Hn].
Defined.


Lemma polling_follows_autoRefresh_witness :
  let a := handle (ops := Examples.ascii_ops) (IntervalChange 60)
             (run_events (ops := Examples.ascii_ops)
                [Init (Examples.serve [Examples.i3])] start) in
  exists id, pollTimer (clock a) = Some id
             /\ intervals (clock a) = [(id, 60000)].
Proof.
  intros a.
  destruct (polling_follows_autoRefresh (ops := Examples.ascii_ops)
              [Init (Examples.serve [Examples.i3])] (IntervalChange 60)
              eq_refl) as [H _].
  apply H. reflexivity.
Defined.


(** ** An item whose card does not render *)

(** The load of a page that holds such an item assigns the collection and
    the view, and stops there: the watermark stays unset and the page
    number is the one from before. *)
Example load_with_unrenderable_card :
  let s := final (Examples.serve [Examples.unrenderable; Examples.i3])
             (loadPage (ops := Examples.ascii_ops) 4) initial in
  renderScriptCard Examples.unrenderable = Throw URIError
  /\ allScripts s = [Examples.unrenderable; Examples.i3]
  /\ filteredScripts s = [Examples.unrenderable; Examples.i3]
  /\ newestTimestamp s = JNull
  /\ currentPage s = 1.
Proof. repeat split. Qed.

(** A cycle that merges such an item advances the watermark and the
    collection, and leaves the badge hidden. *)
Example poll_with_unrenderable_card :
  let s := final (Examples.serve [Examples.unrenderable; Examples.i3])
             (pollForNewScripts (ops := Examples.ascii_ops))
             Examples.loaded3 in
  allScripts s = [Examples.unrenderable; Examples.i3]
  /\ newestTimestamp s = JStr Examples.t5
  /\ newCountBadge s = None.
Proof. repeat split. Qed.

(** ** The page number as a double *)

(** At 2^53 the increment of the Next handler does not advance, and two
    steps further it rounds up to the even significand. *)
Example to_double_at_the_limit :
  to_double (9007199254740992 + 1) = 9007199254740992
  /\ to_double (9007199254740994 + 1) = 9007199254740996
  /\ to_double (9007199254740994 - 1) = 9007199254740992
  /\ to_double (41 + 1) = 42.
Proof. repeat split. Qed.
